(** * orijtech/mapbox: the request/response marshalling layer

    A shallow embedding of the Go package [mapbox] (geocoding.go, options.go,
    mapbox.go) together with the parts of the Go standard library whose
    behaviour the package relies on: [strconv] and [fmt] for numbers,
    [encoding/json] for the dynamic types a decoder stores in an
    [interface{}], [net/url] for query encoding, [net/http] for the shape of
    requests and responses.

    - JSON documents are handled as parsed trees; a number keeps the decimal
      numeral it spells. Parsing and printing JSON text is not modelled.
    - A float32 or float64 is a [spec_float] of the Standard Library.
    - An operation that talks to the network is run against a client that
      answers [Get] and [Do], and yields the list of its outside calls
      together with its outcome.
    - The mutex of [Client] guards reads and writes of single fields; the
      embedding is sequential and leaves it out.

    The repository holds two revisions of geocoding.go. The one embedded is
    the one that goes with mapbox.go and its tests. The later one wraps the
    same steps in tracing spans, builds its GET request with
    [http.NewRequest] before calling [Do], and writes the verb of the
    coordinate-pair arm of [toURLValues] as [%f] instead of [%sf]. Of the
    later one, [toURLValues] is embedded as well (module [traced]), to
    compare the two. *)

From Stdlib Require Import ZArith NArith Bool Ascii.
From Stdlib Require Import Floats.SpecFloat.
From stdpp Require Import base option list strings gmap fin_maps sorting pretty.

Local Open Scope Z_scope.
Set Warnings "-register-all".

(* ===================================================================== *)
(** * Go values: results, slices, pointers, floating point                *)
(* ===================================================================== *)

(** Go's [error] values that this package can produce or pass through. *)
Inductive error : Type :=
  | errorString (s : string)                 (* errors.New, fmt.Errorf *)
  | UnmarshalTypeError (Value Type_ : string) (* encoding/json *)
  | UnsupportedValueError (Str : string).     (* encoding/json *)

Definition Error (e : error) : string :=
  match e with
  | errorString s => s
  | UnmarshalTypeError v t =>
      "json: cannot unmarshal " +:+ v +:+ " into Go value of type " +:+ t
  | UnsupportedValueError s => "json: unsupported value: " +:+ s
  end.

(** The outcome of a Go call of type [(A, error)]: a value, an error, or a
    run-time panic (nil dereference). *)
Inductive result (A : Type) : Type :=
  | Ok (a : A)
  | Err (e : error)
  | Panic.
Arguments Ok {A} a.
Arguments Err {A} e.
Arguments Panic {A}.

Definition rbind {A B} (r : result A) (k : A -> result B) : result B :=
  match r with
  | Ok a => k a
  | Err e => Err e
  | Panic => Panic
  end.

Declare Scope result_scope.
Delimit Scope result_scope with result.
Notation "x <-- r ;; k" := (rbind r (fun x => k))
  (at level 100, r at next level, right associativity) : result_scope.

(** A Go slice is nil or holds a sequence; a pointer is nil or holds a value. *)
Definition slice (A : Type) : Type := option (list A).
Definition ptr (A : Type) : Type := option A.

Definition elems {A} (s : slice A) : list A := default [] s.
Definition len {A} (s : slice A) : nat := length (elems s).
(** [append(s, x)]: never nil. *)
Definition append {A} (s : slice A) (x : A) : slice A := Some (elems s ++ [x]).

(** IEEE 754 binary32 and binary64 values. *)
Definition float32 : Type := spec_float.
Definition float64 : Type := spec_float.

Module strconv.

(** A decimal numeral [-]digits * 10^exp10: what a JSON number literal or a
    printed float denotes. [neg] keeps the sign of a zero. *)
Record decimal : Type := Decimal { neg : bool; digits : N; exp10 : Z }.

(** The fraction p/q rounded to nearest, ties to even, in the binary format
    with [prec] mantissa bits and infinity exponent [emax]. *)
Definition round_ratio (prec emax : Z) (s : bool) (p q : positive)
  : spec_float :=
  let '(m, e, l) := SFdiv_core_binary prec emax (Zpos p) 0 (Zpos q) 0 in
  binary_round_aux prec emax s m e l.

Definition round_decimal (prec emax : Z) (d : decimal) : spec_float :=
  match digits d with
  | N0 => S754_zero (neg d)
  | Npos m =>
      if 0 <=? exp10 d
      then round_ratio prec emax (neg d)
             (m * Z.to_pos (10 ^ exp10 d))%positive 1
      else round_ratio prec emax (neg d) m (Z.to_pos (10 ^ (- exp10 d)))
  end.

(** [strconv.ParseFloat(s, bitSize)] on a well-formed numeral: the nearest
    float, or [None] for [ErrRange] when that is an infinity. Underflow
    is not an error. *)
Definition ParseFloat (prec emax : Z) (d : decimal) : option spec_float :=
  match round_decimal prec emax d with
  | S754_infinity _ => None
  | f => Some f
  end.

Definition ParseFloat64 : decimal -> option float64 := ParseFloat 53 1024.

(** The exact value m * 2^e of a finite float, as a fraction. *)
Definition exact (m : positive) (e : Z) : positive * positive :=
  if 0 <=? e then ((m * Z.to_pos (2 ^ e))%positive, 1%positive)
  else (m, Z.to_pos (2 ^ (- e))).

(** For x = num/den: floor (x / 10^k), and where x / 10^k lies between
    that integer and the next. *)
Definition scale10 (num den : positive) (k : Z) : Z * location :=
  let '(n, d) := if 0 <=? k then (Zpos num, Zpos den * 10 ^ k)
                 else (Zpos num * 10 ^ (- k), Zpos den) in
  let '(q, r) := Z.div_eucl n d in
  (q, if r =? 0 then loc_Exact else loc_Inexact (2 * r ?= d)).

(** The decimal magnitude of x = num/den: 10^(g-1) <= x < 10^g. *)
Fixpoint adjust (fuel : nat) (num den : positive) (g : Z) : Z :=
  match fuel with
  | O => g
  | S fuel' =>
      let q := fst (scale10 num den (g - 1)) in
      if q =? 0 then adjust fuel' num den (g - 1)
      else if 10 <=? q then adjust fuel' num den (g + 1)
      else g
  end.

Definition mag10 (num den : positive) : Z :=
  adjust 4 num den
    ((Zdigits2 (Zpos num) - Zdigits2 (Zpos den)) * 30103 / 100000 + 1).

Definition same_float (a b : spec_float) : bool :=
  match a, b with
  | S754_finite s1 m1 e1, S754_finite s2 m2 e2 =>
      Bool.eqb s1 s2 && (m1 =? m2)%positive && (e1 =? e2)
  | _, _ => false
  end.

(** Shortest decimal that reads back as the float m * 2^e: try 1, 2, ...
    digits; with d digits the candidates are x cut after d digits and the
    next d-digit numeral; of two that read back, the nearer one wins. *)
Fixpoint shortest_from (fuel : nat) (prec emax : Z) (m : positive) (e : Z)
    (mag d : Z) : Z * Z :=
  let '(num, den) := exact m e in
  let k := mag - d in
  let '(q, l) := scale10 num den k in
  let ok z := same_float
                (round_decimal prec emax (Decimal false (Z.to_N z) k))
                (S754_finite false m e) in
  let pick :=
    match l with
    | loc_Exact => Some q
    | _ =>
        match ok q, ok (q + 1) with
        | true, true => Some (round_nearest_even q l)
        | true, false => Some q
        | false, true => Some (q + 1)
        | false, false => None
        end
    end in
  match pick, fuel with
  | Some z, _ => (z, k)
  | None, O => (q, k)
  | None, S fuel' => shortest_from fuel' prec emax m e mag (d + 1)
  end.

Fixpoint strip_zeros (fuel : nat) (z k : Z) : Z * Z :=
  match fuel with
  | O => (z, k)
  | S fuel' =>
      if (z mod 10 =? 0) && negb (z =? 0) then strip_zeros fuel' (z / 10) (k + 1)
      else (z, k)
  end.

(** The digits of [FormatFloat(f, fmt, -1, bitSize)] for a finite non-zero
    float: shortest decimal [z * 10^k] that identifies it. *)
Definition shortest (prec emax : Z) (m : positive) (e : Z) : Z * Z :=
  let '(num, den) := exact m e in
  let '(z, k) := shortest_from 20 prec emax m e (mag10 num den) 1 in
  strip_zeros 20 z k.

Definition sign (s : bool) : string := if s then "-" else "".

Fixpoint zeros (n : nat) : string :=
  match n with O => "" | S n' => "0" +:+ zeros n' end.

Definition take (n : nat) (s : string) : string := String.substring 0 n s.
Definition drop (n : nat) (s : string) : string :=
  String.substring n (String.length s - n) s.

(** Format 'e' with the shortest digits: d[.ddd]e±xx. *)
Definition fmtE (s : bool) (ds : string) (dp : Z) : string :=
  let ex := dp - 1 in
  let es := pretty (Z.abs_N ex) in
  sign s +:+ take 1 ds
    +:+ (if (1 <? String.length ds)%nat then "." +:+ drop 1 ds else "")
    +:+ "e" +:+ (if ex <? 0 then "-" else "+")
    +:+ (if (String.length es <? 2)%nat then "0" else "") +:+ es.

(** Format 'f' with the shortest digits. *)
Definition fmtF (s : bool) (ds : string) (dp : Z) : string :=
  let nd := Z.of_nat (String.length ds) in
  sign s
    +:+ (if 0 <? dp
         then take (Z.to_nat dp) ds +:+ zeros (Z.to_nat (dp - nd))
         else "0")
    +:+ (if dp <? nd
         then "." +:+ zeros (Z.to_nat (- dp)) +:+ drop (Z.to_nat dp) ds
         else "").

(** [FormatFloat(f, 'g', -1, bitSize)], which is what [%v] prints. *)
Definition FormatFloat_g (prec emax : Z) (f : spec_float) : string :=
  match f with
  | S754_nan => "NaN"
  | S754_infinity s => if s then "-Inf" else "+Inf"
  | S754_zero s => sign s +:+ "0"
  | S754_finite s m e =>
      let '(z, k) := shortest prec emax m e in
      let ds := pretty (Z.to_N z) in
      let dp := Z.of_nat (String.length ds) + k in
      if (dp - 1 <? -4) || (6 <=? dp - 1) then fmtE s ds dp else fmtF s ds dp
  end.

(** [FormatFloat(f, 'f', 6, bitSize)], which is what [%f] prints: the exact
    value rounded to six decimals, ties to even. *)
Definition FormatFloat_f6 (f : spec_float) : string :=
  match f with
  | S754_nan => "NaN"
  | S754_infinity s => if s then "-Inf" else "+Inf"
  | S754_zero s => sign s +:+ "0.000000"
  | S754_finite s m e =>
      let '(num, den) := exact m e in
      let '(q, l) := scale10 num den (-6) in
      let n := round_nearest_even q l in
      let fr := pretty (Z.to_N (n mod 1000000)) in
      sign s +:+ pretty (Z.to_N (n / 1000000)) +:+ "."
        +:+ zeros (6 - String.length fr) +:+ fr
  end.

End strconv.

(** Conversions [float32(t)]. *)
Definition float32_of_float64 (t : float64) : float32 :=
  match t with
  | S754_finite s m e => binary_round 24 128 s m e
  | _ => t
  end.

Definition float32_of_int (t : Z) : float32 := binary_normalize 24 128 t 0 false.

(** The sentinel of mapbox.go: [var NoPathDuration = float32(-1)]. *)
Definition NoPathDuration : float32 := float32_of_int (-1).

(** [type LatLonPair []float32] *)
Definition LatLonPair : Type := slice float32.

(** The dynamic values an [interface{}] holds in this package: the types the
    two type switches name, and the types [encoding/json] stores. *)
Inductive any : Type :=
  | go_nil
  | go_string (s : string)
  | go_bool (b : bool)
  | go_float32 (t : float32)
  | go_float64 (t : float64)
  | go_int (t : Z)
  | go_int32 (t : Z)
  | go_int64 (t : Z)
  | go_uint (t : N)
  | go_uint32 (t : N)
  | go_uint64 (t : N)
  | go_slice_float32 (s : slice float32)         (* []float32 *)
  | go_slice_string (s : slice string)           (* []string *)
  | go_ptr_LatLonPair (p : ptr LatLonPair)       (* *LatLonPair *)
  | go_slice_any (l : list any)                  (* []interface{} *)
  | go_map_any (l : list (string * any)).        (* map[string]interface{} *)

(* ===================================================================== *)
(** * encoding/json                                                       *)
(* ===================================================================== *)

Module json.

(** A JSON document. A number keeps the numeral it spells. *)
Inductive value : Type :=
  | JNull
  | JBool (b : bool)
  | JNumber (d : strconv.decimal)
  | JString (s : string)
  | JArray (l : list value)
  | JObject (l : list (string * value)).

Definition kind (j : value) : string :=
  match j with
  | JNull => "null"
  | JBool _ => "bool"
  | JNumber _ => "number"
  | JString _ => "string"
  | JArray _ => "array"
  | JObject _ => "object"
  end.

Section Each.
Context {A B : Type} (f : A -> result B).
Fixpoint each (l : list A) : result (list B) :=
  match l with
  | [] => Ok []
  | x :: l' => (y <-- f x ;; ys <-- each l' ;; Ok (y :: ys))%result
  end.
Fixpoint each_member {K : Type} (l : list (K * A)) : result (list (K * B)) :=
  match l with
  | [] => Ok []
  | (k, x) :: l' =>
      (y <-- f x ;; ys <-- each_member l' ;; Ok ((k, y) :: ys))%result
  end.
End Each.

(** [convertNumber]: a number is stored as float64; a numeral out of the
    float64 range is an [UnmarshalTypeError] (whose [Value] also spells the
    numeral, which the tree does not keep). *)
Definition convertNumber (d : strconv.decimal) : result any :=
  match strconv.ParseFloat64 d with
  | Some f => Ok (go_float64 f)
  | None => Err (UnmarshalTypeError "number" "float64")
  end.

(** [valueInterface]: what [Unmarshal] stores in an [interface{}]:
    nil, bool, float64, string, []interface{} or map[string]interface{}.
    The first error met is the one [Unmarshal] returns. *)
Fixpoint valueInterface (j : value) : result any :=
  match j with
  | JNull => Ok go_nil
  | JBool b => Ok (go_bool b)
  | JNumber d => convertNumber d
  | JString s => Ok (go_string s)
  | JArray l => (l' <-- each valueInterface l ;; Ok (go_slice_any l'))%result
  | JObject l =>
      (l' <-- each_member valueInterface l ;; Ok (go_map_any l'))%result
  end.

(** [var irecv []interface{}; json.Unmarshal(b, &irecv)]: null leaves the
    slice nil, an array fills it, anything else is an error. *)
Definition Unmarshal_slice (b : value) : result (slice any) :=
  match b with
  | JNull => Ok None
  | JArray l => (l' <-- each valueInterface l ;; Ok (Some l'))%result
  | _ => Err (UnmarshalTypeError (kind b) "[]interface {}")
  end.

(** [recv := make(map[string]interface{}); json.Unmarshal(blob, &recv)]:
    null gives the nil map, an object fills the map, a later member
    replacing an earlier one of the same name. *)
Definition Unmarshal_map (blob : value) : result (gmap string any) :=
  match blob with
  | JNull => Ok ∅
  | JObject l =>
      (l' <-- each_member valueInterface l ;;
       Ok (foldl (fun m kv => <[kv.1 := kv.2]> m) ∅ l'))%result
  | _ => Err (UnmarshalTypeError (kind blob) "map[string]interface {}")
  end.

(** Encoders. A float32 is printed with the fewest digits that identify
    it; NaN and the infinities are an [UnsupportedValueError]. *)
Definition floatEncoder (prec emax : Z) (f : spec_float) : result value :=
  match f with
  | S754_zero s => Ok (JNumber (strconv.Decimal s 0 0))
  | S754_finite s m e =>
      let '(z, k) := strconv.shortest prec emax m e in
      Ok (JNumber (strconv.Decimal s (Z.to_N z) k))
  | _ => Err (UnsupportedValueError (strconv.FormatFloat_g prec emax f))
  end.

Definition uintEncoder (n : N) : value := JNumber (strconv.Decimal false n 0).

(** A slice: nil is [null], otherwise an array. *)
Definition sliceEncoder {A} (enc : A -> result value) (s : slice A)
  : result value :=
  match s with
  | None => Ok JNull
  | Some l => (l' <-- each enc l ;; Ok (JArray l'))%result
  end.

(** A pointer: nil is [null]. *)
Definition ptrEncoder {A} (enc : A -> result value) (p : ptr A)
  : result value :=
  match p with
  | None => Ok JNull
  | Some a => enc a
  end.

(** A struct field: skipped when tagged [omitempty] and empty. *)
Definition field (name : string) (omit : bool) (v : result value)
  : result (list (string * value)) :=
  if omit then Ok [] else (j <-- v ;; Ok [(name, j)])%result.

Fixpoint fields (fs : list (result (list (string * value))))
  : result (list (string * value)) :=
  match fs with
  | [] => Ok []
  | f :: fs' => (l <-- f ;; ls <-- fields fs' ;; Ok (l ++ ls))%result
  end.

(** Types that [json.Marshal] accepts. *)
Class Marshaler (A : Type) := Marshal : A -> result value.

End json.

(* ===================================================================== *)
(** * fmt, net/url, net/http                                              *)
(* ===================================================================== *)

Module fmt.

(** [Sprintf("%d", n)] for an unsigned integer. *)
Definition Sprintf_d (n : N) : string := pretty n.

(** [Sprintf("%v", b)] for a bool. *)
Definition Sprintf_v_bool (b : bool) : string := if b then "true" else "false".

(** [Sprintf("%f", x)] for a float32 or a float64. *)
Definition Sprintf_f (x : spec_float) : string := strconv.FormatFloat_f6 x.

(** [Sprintf("%v", x)] for a float32. *)
Definition Sprintf_v_float32 (x : float32) : string :=
  strconv.FormatFloat_g 24 128 x.

(** [Sprintf("%sf", x)] for a float32: [%s] is the wrong verb for a
    float, so the value is reported as such, and the [f] is literal. *)
Definition Sprintf_sf (x : float32) : string :=
  "%!s(float32=" +:+ Sprintf_v_float32 x +:+ ")f".

(** [Sprintf("%v", p)] for a [*LatLonPair]: [<nil>] or [&[a b c]]. *)
Definition Sprintf_v_ptr_LatLonPair (p : ptr LatLonPair) : string :=
  match p with
  | None => "<nil>"
  | Some s =>
      "&[" +:+ String.concat " " (Sprintf_v_float32 <$> elems s) +:+ "]"
  end.

End fmt.

Module url.

(** [type Values map[string][]string] *)
Abbreviation Values := (gmap string (list string)).

(** [v[key] = append(v[key], value)] *)
Definition Add (key value : string) (v : Values) : Values :=
  <[key := default [] (v !! key) ++ [value]]> v.

Definition between (lo hi c : ascii) : bool :=
  ((N_of_ascii lo <=? N_of_ascii c) && (N_of_ascii c <=? N_of_ascii hi))%N.

(** [shouldEscape(c, encodeQueryComponent)] *)
Definition shouldEscape (c : ascii) : bool :=
  if between "a" "z" c || between "A" "Z" c || between "0" "9" c then false
  else if bool_decide (c ∈ ["-"; "_"; "."; "~"]%char) then false
  else true.

Definition upperhex (n : N) : ascii :=
  default "0"%char (String.get (N.to_nat n) "0123456789ABCDEF").

(** [QueryEscape]: a space becomes [+], any other byte that must be
    escaped becomes [%XX]. *)
Fixpoint QueryEscape (s : string) : string :=
  match s with
  | EmptyString => EmptyString
  | String c s' =>
      if negb (shouldEscape c) then String c (QueryEscape s')
      else if Ascii.eqb c " " then String "+" (QueryEscape s')
      else String "%" (String (upperhex (N_of_ascii c / 16))
             (String (upperhex (N_of_ascii c mod 16)) (QueryEscape s')))
  end.

(** [Encode]: key=value pairs joined by [&], keys in sorted order. *)
Definition Encode (v : Values) : string :=
  let keys := merge_sort String.le (map_to_list v).*1 in
  String.concat "&"
    (keys ≫= fun k =>
       (fun x => QueryEscape k +:+ "=" +:+ QueryEscape x)
         <$> default [] (v !! k)).

End url.

Module http.

(** An [io.ReadCloser] body is given by what [ioutil.ReadAll] reads. *)
Definition ReadCloser : Type := result string.

(** A request: its method, its URL as written, the document in its body. *)
Record Request : Type :=
  { Method : string; URL : string; ReqBody : json.value }.

(** A response as a [*http.Client] hands it out: [Body] is never nil
    (the Client fills in an empty body where the transport gave none). *)
Record Response : Type :=
  { Status : string; StatusCode : Z; Body : ReadCloser }.

(** What a [*http.Client] answers to [Get(url)] and to [Do(req)]. *)
Record Client : Type :=
  { Get : string -> result Response;
    Do : ptr Request -> result Response }.

End http.

(* ===================================================================== *)
(** * Package mapbox: data model                                          *)
(* ===================================================================== *)

Import json.
Local Open Scope result_scope.

Definition GeocodeMode : Type := string.
Definition GeocodePlaces : GeocodeMode := "mapbox.places".
Definition GeocodePermanentPlaces : GeocodeMode := "mapbox.places-permanent".

(** [func (gm GeocodeMode) String() string] *)
Definition GeocodeMode_String (gm : GeocodeMode) : string :=
  if decide (gm = "") then GeocodePlaces else gm.

Definition GeocodeType : Type := string.

Record GeocodeRequest : Type :=
  { Country : slice string;             (* json:"country,omitempty" *)
    Limit : N;                          (* uint, json:"limit,omitempty" *)
    Types : slice GeocodeType;          (* json:"types,omitempty" *)
    Proximity : ptr LatLonPair;         (* json:"proximity,omitempty" *)
    BoundingBox : slice float32;        (* json:"bbox,omitempty" *)
    AutoComplete : bool }.              (* json:"autocomplete,omitempty" *)

Record ReverseGeocodeRequest : Type :=
  { Query : string;
    Mode : GeocodeMode;
    Request : ptr GeocodeRequest }.

Record Geometry : Type :=
  { Geometry_Type : string; Geometry_Coordinates : slice float32 }.

Record GeocodeContext : Type :=
  { Context_Id : string; Context_Text : string;
    ShortCode : string; Wikidata : string }.

Record GeocodeFeature : Type :=
  { Id : string;
    Feature_Type : string;
    Text : string;
    PlaceName : string;
    Relevance : float32;
    Properties : ptr (gmap string any);
    Context : slice (ptr GeocodeContext);
    Feature_BoundingBox : slice float32;
    Center : slice float32;
    Feature_Geometry : ptr Geometry;
    Attribution : string }.

Record GeocodeResponse : Type :=
  { Response_Type : string;
    Response_Query : ptr LatLonPair;
    Features : slice (ptr GeocodeFeature) }.

Record DurationRequest : Type :=
  { Coordinates : slice (ptr LatLonPair) }.   (* json:"coordinates" *)

Record DurationResponse : Type :=
  { Durations : slice (ptr LatLonPair) }.      (* json:"durations,omitempty" *)

Record Client : Type :=
  { version : string;
    apiKey : string;
    httpClient : ptr http.Client }.

(** What the package takes from its process and from packages whose code is
    outside the repository. *)
Record Env : Type :=
  { (** [var defaultEnvAPIKey = os.Getenv("MAPBOX_API_KEY")] *)
    defaultEnvAPIKey : string;
    (** [http.DefaultClient] *)
    DefaultClient : http.Client;
    (** the error of [url.Parse(rawurl)], if any *)
    url_Parse : string -> option error;
    (** [json.Unmarshal(blob, new(GeocodeResponse))] *)
    Unmarshal_GeocodeResponse : string -> result GeocodeResponse;
    (** [json.Unmarshal(slurp, new(DurationResponse))] *)
    Unmarshal_DurationResponse : string -> result DurationResponse }.

(** ** How the request structs are marshalled *)

Definition is_nil {A} (p : option A) : bool :=
  match p with None => true | Some _ => false end.

(** A string (taken to be valid UTF-8, which is what decodes back to it). *)
Definition stringEncoder (s : string) : result value := Ok (JString s).
Definition float32Encoder : float32 -> result value := floatEncoder 24 128.
Definition LatLonPairEncoder : LatLonPair -> result value :=
  sliceEncoder float32Encoder.

Definition GeocodeRequestEncoder (r : GeocodeRequest) : result value :=
  l <-- fields
    [ field "country" (len (Country r) =? 0)%nat
        (sliceEncoder stringEncoder (Country r));
      field "limit" (Limit r =? 0)%N (Ok (uintEncoder (Limit r)));
      field "types" (len (Types r) =? 0)%nat
        (sliceEncoder stringEncoder (Types r));
      field "proximity" (is_nil (Proximity r))
        (ptrEncoder LatLonPairEncoder (Proximity r));
      field "bbox" (len (BoundingBox r) =? 0)%nat
        (sliceEncoder float32Encoder (BoundingBox r));
      field "autocomplete" (negb (AutoComplete r))
        (Ok (JBool (AutoComplete r))) ] ;;
  Ok (JObject l).

Definition DurationRequestEncoder (r : DurationRequest) : result value :=
  l <-- fields
    [ field "coordinates" false
        (sliceEncoder (ptrEncoder LatLonPairEncoder) (Coordinates r)) ] ;;
  Ok (JObject l).

#[export] Instance Marshal_GeocodeRequest : Marshaler (ptr GeocodeRequest) :=
  ptrEncoder GeocodeRequestEncoder.
#[export] Instance Marshal_DurationRequest : Marshaler (ptr DurationRequest) :=
  ptrEncoder DurationRequestEncoder.

(* ===================================================================== *)
(** * Package mapbox: mapbox.go                                           *)
(* ===================================================================== *)

(** [func (c *Client) APIKey() string] *)
Definition APIKey (E : Env) (c : Client) : string :=
  if decide (apiKey c ≠ "") then apiKey c else defaultEnvAPIKey E.

(** [func (c *Client) SetAPIKey(key string)] *)
Definition SetAPIKey (c : Client) (key : string) : Client :=
  {| version := version c; apiKey := key; httpClient := httpClient c |}.

(** The loop body of [UnmarshalJSON]: the float32 appended for one element. *)
Definition UnmarshalJSON_elem (v : any) : float32 :=
  match v with
  | go_nil => NoPathDuration             (* They sent back `null` so no path *)
  | go_float32 t => t
  | go_float64 t => float32_of_float64 t
  | go_int t => float32_of_int t
  | go_int32 t => float32_of_int t
  | go_int64 t => float32_of_int t
  | go_uint t => float32_of_int (Z.of_N t)
  | go_uint32 t => float32_of_int (Z.of_N t)
  | go_uint64 t => float32_of_int (Z.of_N t)
  | _ => NoPathDuration
  end.

(** [func (llp *LatLonPair) UnmarshalJSON(b []byte) error]: the new value of
    [*llp], or the error. [b] is given as the JSON value it spells. *)
Definition UnmarshalJSON (b : value) : result LatLonPair :=
  irecv <-- Unmarshal_slice b ;;
  Ok (foldl (fun recv v => append recv (UnmarshalJSON_elem v)) None (elems irecv)).

Definition defaultAPIVersion : string := "v1".

(** [func (c *Client) APIVersion() string] *)
Definition APIVersion (c : Client) : string :=
  if decide (version c ≠ "") then version c else defaultAPIVersion.

Definition baseURL : string := "https://api.mapbox.com".

(** [func (c *Client) durationsURL() string] *)
Definition durationsURL (E : Env) (c : Client) : string :=
  baseURL +:+ "/distances/" +:+ APIVersion c
    +:+ "/mapbox/driving?access_token=" +:+ APIKey E c.

(** [func (c *Client) _httpClient() *http.Client] *)
Definition _httpClient (E : Env) (c : Client) : http.Client :=
  match httpClient c with
  | Some hc => hc
  | None => DefaultClient E
  end.

(** [func statusOK(c int) bool] *)
Definition statusOK (c : Z) : bool := (200 <=? c) && (c <=? 299).

(** [func NewClient(opts ...Option)], with the options of options.go. *)
Definition Option : Type := Client -> Client.
Definition WithHTTPClient (hc : ptr http.Client) : Option :=
  fun c => {| version := version c; apiKey := apiKey c; httpClient := hc |}.
Definition NewClient (opts : list Option) : result Client :=
  Ok (foldl (fun c opt => opt c)
        {| version := ""; apiKey := ""; httpClient := None |} opts).

(** ** Running an operation

    An operation is run as the list of the calls it makes on the HTTP
    client, on the response body and on the decoder of the response, in
    order, together with its outcome. *)
Inductive event : Type :=
  | EvGet (url : string)               (* httpClient.Get(url) *)
  | EvDo (req : ptr http.Request)      (* httpClient.Do(req) *)
  | EvClose                            (* res.Body.Close() *)
  | EvReadAll                          (* ioutil.ReadAll(res.Body) *)
  | EvUnmarshal (blob : string).       (* json.Unmarshal(blob, _) *)

Definition IO (A : Type) : Type := list event * result A.

Definition io_bind {A B} (m : IO A) (k : A -> IO B) : IO B :=
  match m with
  | (t, Ok a) => let '(t', r) := k a in (t ++ t', r)
  | (t, Err e) => (t, Err e)
  | (t, Panic) => (t, Panic)
  end.

(** A step that makes none of these calls. *)
Definition pure_ {A} (r : result A) : IO A := ([], r).
(** A step that is one such call. *)
Definition call {A} (ev : event) (r : result A) : IO A := ([ev], r).
(** [defer f()] around the rest of the function body. *)
Definition defer {A} (ev : event) (m : IO A) : IO A := (m.1 ++ [ev], m.2).

Declare Scope io_scope.
Delimit Scope io_scope with io.
Notation "x <~ m ;; k" := (io_bind m (fun x => k))
  (at level 100, m at next level, right associativity) : io_scope.

Definition trace {A} (m : IO A) : list event := m.1.
Definition outcome {A} (m : IO A) : result A := m.2.

(** [ioutil.ReadAll(res.Body)] *)
Definition ReadAll (body : http.ReadCloser) : IO string := call EvReadAll body.

(** [http.NewRequest(method, url, body)] for a valid method: the request,
    or nil and the error of parsing the URL. *)
Definition NewRequest (E : Env) (method url : string) (body : value)
  : ptr http.Request * option error :=
  match url_Parse E url with
  | Some err => (None, Some err)
  | None =>
      (Some {| http.Method := method; http.URL := url; http.ReqBody := body |},
       None)
  end.

(** [func (c *Client) RequestDuration(dreq *DurationRequest)] *)
Definition RequestDuration (E : Env) (c : Client) (dreq : ptr DurationRequest)
  : IO DurationResponse :=
  (blob <~ pure_ (Marshal dreq) ;;
   let '(req, _) := NewRequest E "POST" (durationsURL E c) blob in
   let httpClient := _httpClient E c in
   res <~ call (EvDo req) (http.Do httpClient req) ;;
   defer EvClose              (* res.Body != nil: see [http.Response] *)
     (if negb (statusOK (http.StatusCode res))
      then pure_ (Err (errorString (http.Status res)))
      else
        slurp <~ ReadAll (http.Body res) ;;
        dres <~ call (EvUnmarshal slurp) (Unmarshal_DurationResponse E slurp) ;;
        pure_ (Ok dres)))%io.

(* ===================================================================== *)
(** * Package mapbox: geocoding.go                                        *)
(* ===================================================================== *)

(** One turn of the loop of [toURLValues]: the type switch on [ival]. *)
Definition toURLValues_case (key : string) (ival : any) (outValues : url.Values)
  : result url.Values :=
  match ival with
  | go_nil => Ok outValues                                (* continue *)
  | go_string typ => Ok (url.Add key typ outValues)
  | go_uint typ => Ok (url.Add key (fmt.Sprintf_d typ) outValues)
  | go_bool typ => Ok (url.Add key (fmt.Sprintf_v_bool typ) outValues)
  | go_slice_float32 typ =>
      Ok (foldl (fun out fV => url.Add key (fmt.Sprintf_f fV) out)
            outValues (elems typ))
  | go_slice_string typ =>
      Ok (foldl (fun out strV => url.Add key strV out) outValues (elems typ))
  | go_ptr_LatLonPair typ =>
      match typ with
      | None => Panic                                     (* range *typ *)
      | Some s =>
          Ok (url.Add key (fmt.Sprintf_v_ptr_LatLonPair typ)
                (foldl (fun out fV => url.Add key (fmt.Sprintf_sf fV) out)
                   outValues (elems s)))
      end
  | _ => Ok outValues                                     (* default *)
  end.

(** [for key, ival := range recv { ... }] *)
Definition toURLValues_range (recv : gmap string any) : result url.Values :=
  map_fold
    (fun key ival acc => outValues <-- acc ;; toURLValues_case key ival outValues)
    (Ok ∅) recv.

(** [func toURLValues(v interface{}) (url.Values, error)] *)
Definition toURLValues {A} `{Marshaler A} (v : A) : result url.Values :=
  blob <-- Marshal v ;;
  recv <-- Unmarshal_map blob ;;
  toURLValues_range recv.

(** [func (c *Client) doGeoCodingRequest(req *ReverseGeocodeRequest)] *)
Definition doGeoCodingRequest (E : Env) (c : Client) (req : ReverseGeocodeRequest)
  : IO GeocodeResponse :=
  (asURLValues <~ pure_ (toURLValues (Request req)) ;;
   let asURLValues := url.Add "access_token" (APIKey E c) asURLValues in
   let outURL :=
     baseURL +:+ "/geocoding/v5/" +:+ GeocodeMode_String (Mode req) +:+ "/"
       +:+ Query req +:+ ".json?" +:+ url.Encode asURLValues in
   let httpClient := _httpClient E c in
   res <~ call (EvGet outURL) (http.Get httpClient outURL) ;;
   defer EvClose
     (if negb (statusOK (http.StatusCode res))
      then pure_ (Err (errorString (http.Status res)))
      else
        blob <~ ReadAll (http.Body res) ;;
        gres <~ call (EvUnmarshal blob) (Unmarshal_GeocodeResponse E blob) ;;
        pure_ (Ok gres)))%io.

(** [func (c *Client) LookupPlace(query string)] *)
Definition LookupPlace (E : Env) (c : Client) (query : string)
  : IO GeocodeResponse :=
  doGeoCodingRequest E c {| Query := query; Mode := ""; Request := None |}.

(** [func (c *Client) ReverseGeocoding(req *ReverseGeocodeRequest)] *)
Definition ReverseGeocoding (E : Env) (c : Client) (req : ReverseGeocodeRequest)
  : IO GeocodeResponse :=
  doGeoCodingRequest E c req.

(** The request [LookupLatLon] builds:
    [Query: fmt.Sprintf("%f,%f", lon, lat)]. *)
Definition LookupLatLon_request (lat lon : float64) : ReverseGeocodeRequest :=
  {| Query := fmt.Sprintf_f lon +:+ "," +:+ fmt.Sprintf_f lat;
     Mode := "";
     Request := None |}.


(* ===================================================================== *)
(** * Package mapbox: the later revision of geocoding.go                  *)
(* ===================================================================== *)

(** [toURLValues] as the revision with tracing has it: the arm for a
    coordinate pair prints each coordinate with the verb [%f]. *)
Module traced.

Definition toURLValues_case (key : string) (ival : any) (outValues : url.Values)
  : result url.Values :=
  match ival with
  | go_nil => Ok outValues                                (* continue *)
  | go_string typ => Ok (url.Add key typ outValues)
  | go_uint typ => Ok (url.Add key (fmt.Sprintf_d typ) outValues)
  | go_bool typ => Ok (url.Add key (fmt.Sprintf_v_bool typ) outValues)
  | go_slice_float32 typ =>
      Ok (foldl (fun out fV => url.Add key (fmt.Sprintf_f fV) out)
            outValues (elems typ))
  | go_slice_string typ =>
      Ok (foldl (fun out strV => url.Add key strV out) outValues (elems typ))
  | go_ptr_LatLonPair typ =>
      match typ with
      | None => Panic                                     (* range *typ *)
      | Some s =>
          Ok (url.Add key (fmt.Sprintf_v_ptr_LatLonPair typ)
                (foldl (fun out fV => url.Add key (fmt.Sprintf_f fV) out)
                   outValues (elems s)))
      end
  | _ => Ok outValues                                     (* default *)
  end.

Definition toURLValues_range (recv : gmap string any) : result url.Values :=
  map_fold
    (fun key ival acc => outValues <-- acc ;; toURLValues_case key ival outValues)
    (Ok ∅) recv.

Definition toURLValues {A} `{Marshaler A} (v : A) : result url.Values :=
  blob <-- Marshal v ;;
  recv <-- Unmarshal_map blob ;;
  toURLValues_range recv.

End traced.

(* ===================================================================== *)
(** * Definitions used to state the properties                            *)
(* ===================================================================== *)

Definition is_Err {A} (r : result A) : Prop :=
  match r with Err _ => True | _ => False end.

(** Every number in the document lies in the float64 range, that is,
    [strconv.ParseFloat(_, 64)] accepts it. *)
Fixpoint in_range (j : value) : bool :=
  match j with
  | JNumber d => bool_decide (is_Some (strconv.ParseFloat64 d))
  | JArray l => forallb in_range l
  | JObject l => forallb (fun kv => let '(_, x) := kv in in_range x) l
  | _ => true
  end.

Definition float64_of_decimal (d : strconv.decimal) : float64 :=
  strconv.round_decimal 53 1024 d.

(** The element rule in the words of the specification: null gives the
    sentinel, a number gives its 32-bit float conversion, any other type
    gives the sentinel. *)
Definition sentinel_rule (j : value) : float32 :=
  match j with
  | JNull => NoPathDuration
  | JNumber d => float32_of_float64 (float64_of_decimal d)
  | _ => NoPathDuration
  end.

(** The numeral z * 10^e, and the floats nearest to it. *)
Definition dec (z e : Z) : strconv.decimal :=
  strconv.Decimal (z <? 0) (Z.abs_N z) e.
Definition f32 (z e : Z) : float32 := strconv.round_decimal 24 128 (dec z e).
Definition f64 (z e : Z) : float64 := strconv.round_decimal 53 1024 (dec z e).

(** An integer literal. *)
Definition JInt (z : Z) : value := JNumber (dec z 0).

(** The dynamic types [encoding/json] stores in an [interface{}]. *)
Definition stored (v : any) : Prop :=
  match v with
  | go_nil | go_bool _ | go_float64 _ | go_string _
  | go_slice_any _ | go_map_any _ => True
  | _ => False
  end.

(** The values one stored value contributes under its key, if any. *)
Definition emitted (v : any) : option (list string) :=
  match v with
  | go_string s => Some [s]
  | go_bool b => Some [fmt.Sprintf_v_bool b]
  | _ => None
  end.

(** A JSON value that, once decoded, contributes no parameter. *)
Definition not_emitted (j : value) : Prop :=
  forall v, valueInterface j = Ok v -> emitted v = None.

(** Marshalling and decoding fail with an error or succeed: no panic. *)
Definition no_panic {A} (r : result A) : Prop := r <> Panic.

(** A field of a request is unset (and omitted by [omitempty]), or its JSON
    value is null. *)
Definition unset_or_null (r : GeocodeRequest) (key : string) : Prop :=
  (key = "country" /\ len (Country r) = 0%nat)
  \/ (key = "limit" /\ Limit r = 0%N)
  \/ (key = "types" /\ len (Types r) = 0%nat)
  \/ (key = "proximity" /\ (Proximity r = None \/ Proximity r = Some None))
  \/ (key = "bbox" /\ len (BoundingBox r) = 0%nat)
  \/ (key = "autocomplete" /\ AutoComplete r = false).

(** The URL of a geocoding request. *)
Definition geocodingURL (E : Env) (c : Client) (req : ReverseGeocodeRequest)
    (vals : url.Values) : string :=
  baseURL +:+ "/geocoding/v5/"
    +:+ (if decide (Mode req = "") then "mapbox.places" else Mode req)
    +:+ "/" +:+ Query req +:+ ".json?"
    +:+ url.Encode (url.Add "access_token" (APIKey E c) vals).




Definition is_finite (x : spec_float) : bool :=
  match x with
  | S754_zero _ | S754_finite _ _ _ => true
  | _ => false
  end.

(** A member of an object by its name: the last one, when a name is
    repeated. *)
Fixpoint member {V} (k : string) (l : list (string * V)) : option V :=
  match l with
  | [] => None
  | (k', x) :: l' =>
      match member k l' with
      | Some y => Some y
      | None => if decide (k' = k) then Some x else None
      end
  end.

(** The values a member of a JSON object contributes under its name: one
    for a string, one for a bool, none for anything else. *)
Definition emitted_json (j : value) : option (list string) :=
  match j with
  | JString s => Some [s]
  | JBool b => Some [fmt.Sprintf_v_bool b]
  | _ => None
  end.

Definition is_number (j : value) : bool :=
  match j with JNumber _ => true | _ => false end.

(** The error [json.Marshal] has for a float that JSON cannot spell. *)
Definition unsupported_float (e : error) : Prop :=
  e = UnsupportedValueError "NaN" \/ e = UnsupportedValueError "+Inf"
  \/ e = UnsupportedValueError "-Inf".

(** Every coordinate of a row, of a duration request, of a geocoding filter
    is a finite number. *)
Definition row_finite (p : ptr LatLonPair) : bool :=
  match p with
  | None => true
  | Some llp => forallb is_finite (elems llp)
  end.

Definition coordinates_finite (r : DurationRequest) : bool :=
  forallb row_finite (elems (Coordinates r)).

Definition filter_finite (r : GeocodeRequest) : bool :=
  row_finite (Proximity r) && forallb is_finite (elems (BoundingBox r)).

(** The loop of [toURLValues] run over the entries of the map in a given
    order: Go leaves the order of [range] over a map open. *)
Definition toURLValues_loop (entries : list (string * any)) : result url.Values :=
  foldl (fun acc kv => outValues <-- acc ;; toURLValues_case kv.1 kv.2 outValues)
    (Ok ∅) entries.

(** [v.Add(key, x)] for each [x] of a list, in order. *)
Definition adds (key : string) (xs : list string) (v : url.Values) : url.Values :=
  foldl (fun out x => url.Add key x out) v xs.

(** The values one turn of the loop adds under its key, in order; none
    where the turn panics. *)
Definition case_values (ival : any) : option (list string) :=
  match ival with
  | go_string typ => Some [typ]
  | go_uint typ => Some [fmt.Sprintf_d typ]
  | go_bool typ => Some [fmt.Sprintf_v_bool typ]
  | go_slice_float32 typ => Some (fmt.Sprintf_f <$> elems typ)
  | go_slice_string typ => Some (elems typ)
  | go_ptr_LatLonPair None => None
  | go_ptr_LatLonPair (Some s) =>
      Some ((fmt.Sprintf_sf <$> elems s)
              ++ [fmt.Sprintf_v_ptr_LatLonPair (Some s)])
  | _ => Some []
  end.



(** Whether a geocoding request has a filter with the flag set. *)
Definition autocomplete_set (req : ReverseGeocodeRequest) : bool :=
  match Request req with
  | Some r => AutoComplete r
  | None => false
  end.

(** How many values the arm of the switch for a value adds. *)
Definition case_count (ival : any) : nat :=
  match ival with
  | go_string _ | go_uint _ | go_bool _ => 1
  | go_slice_float32 typ => len typ
  | go_slice_string typ => len typ
  | go_ptr_LatLonPair (Some s) => len s + 1
  | _ => 0
  end.

(** ** Test doubles, after the round trippers of the package's tests *)

(** [makeResp(status, code, body)] *)
Definition makeResp (status : string) (code : Z) (body : http.ReadCloser)
  : http.Response :=
  {| http.Status := status; http.StatusCode := code; http.Body := body |}.

(** [http.NoBody] *)
Definition NoBody : http.ReadCloser := Ok "".

(** A client whose transport answers every request with 404, as [tBackend]
    does for a route it does not know; [Do(nil)] is a nil dereference. *)
Definition notFoundClient : http.Client :=
  {| http.Get := fun _ => Ok (makeResp "Not Found" 404 NoBody);
     http.Do := fun req =>
       match req with
       | None => Panic
       | Some _ => Ok (makeResp "Not Found" 404 NoBody)
       end |}.

(** [stringContainsCTLByte]: the first check of [url.Parse]. *)
Fixpoint stringContainsCTLByte (s : string) : bool :=
  match s with
  | EmptyString => false
  | String c s' =>
      (N_of_ascii c <? 32)%N || (N_of_ascii c =? 127)%N
        || stringContainsCTLByte s'
  end.

(** A process without MAPBOX_API_KEY, whose [url.Parse] rejects control
    bytes and nothing else, and whose response bodies never hold a JSON
    document (the bodies of the test doubles are empty). *)
Definition testEnv : Env :=
  {| defaultEnvAPIKey := "";
     DefaultClient := notFoundClient;
     url_Parse := fun rawurl =>
       if stringContainsCTLByte rawurl
       then Some (errorString "net/url: invalid control character in URL")
       else None;
     Unmarshal_GeocodeResponse := fun _ =>
       Err (errorString "unexpected end of JSON input");
     Unmarshal_DurationResponse := fun _ =>
       Err (errorString "unexpected end of JSON input") |}.

(** A client made by [NewClient()], with no option. *)
Definition plainClient : Client :=
  {| version := ""; apiKey := ""; httpClient := None |}.

(** A client whose API key holds a line feed. *)
Definition badKeyClient : Client :=
  {| version := ""; apiKey := String "010" "pk.test"; httpClient := None |}.

(* ===================================================================== *)
(** * Checks of the library model                                         *)
(* ===================================================================== *)

(** Reading numerals: 0.1, the largest float64, a numeral that underflows,
    and one beyond the range. *)
Example ParseFloat64_examples :
  strconv.ParseFloat64 (strconv.Decimal false 1 (-1))
    = Some (S754_finite false 7205759403792794 (-56))
  /\ strconv.ParseFloat64 (strconv.Decimal false 17976931348623157 292)
    = Some (S754_finite false 9007199254740991 971)
  /\ strconv.ParseFloat64 (strconv.Decimal true 1 (-999)) = Some (S754_zero true)
  /\ strconv.ParseFloat64 (strconv.Decimal false 1 999) = None.
Proof. repeat split; vm_compute; reflexivity. Qed.

(** Printing a float32 with the fewest digits. *)
Example FormatFloat_g_examples :
  strconv.FormatFloat_g 24 128 (f32 1 (-1)) = "0.1"
  /\ strconv.FormatFloat_g 24 128 (f32 1341894 (-5)) = "13.41894"
  /\ strconv.FormatFloat_g 24 128 (f32 33333333333 (-11)) = "0.33333334"
  /\ strconv.FormatFloat_g 24 128 (f32 34028235 31) = "3.4028235e+38"
  /\ strconv.FormatFloat_g 24 128 (f32 1 6) = "1e+06"
  /\ strconv.FormatFloat_g 24 128 (f32 1 (-5)) = "1e-05"
  /\ strconv.FormatFloat_g 24 128 NoPathDuration = "-1".
Proof. repeat split; vm_compute; reflexivity. Qed.

(** Printing with six decimals; 0.0078125 lies halfway and goes to even. *)
Example FormatFloat_f6_examples :
  strconv.FormatFloat_f6 (f64 388971 (-4)) = "38.897100"
  /\ strconv.FormatFloat_f6 (f64 78125 (-7)) = "0.007812"
  /\ strconv.FormatFloat_f6 (f64 15 (-7)) = "0.000002"
  /\ strconv.FormatFloat_f6 (f64 1 21) = "1000000000000000000000.000000"
  /\ strconv.FormatFloat_f6 (S754_zero true) = "-0.000000"
  /\ strconv.FormatFloat_f6 S754_nan = "NaN".
Proof. repeat split; vm_compute; reflexivity. Qed.

Example Encode_example :
  url.Encode (url.Add "b" "x y" (url.Add "a" "1&2" (url.Add "b" "~/" ∅)))
  = "a=1%262&b=~%2F&b=x+y".
Proof. vm_compute. reflexivity. Qed.

(** The request of TestRoundtripDurationResponse: its rows are printed as the
    keys of the test's [durationsMap] spell them. *)
Example Marshal_DurationRequest_test :
  let num z := JNumber (dec z (-5)) in
  Marshal (Some {| Coordinates :=
                     Some [Some (Some [f32 1341894 (-5); f32 5250055 (-5)]);
                           Some (Some [f32 1410293 (-5); f32 5250055 (-5)]);
                           Some (Some [f32 1350116 (-5); f32 5310293 (-5)])] |})
  = Ok (JObject
          [("coordinates",
            JArray [JArray [num 1341894; num 5250055];
                    JArray [num 1410293; num 5250055];
                    JArray [num 1350116; num 5310293]])]).
Proof. vm_compute. reflexivity. Qed.

(** A coordinate that is not a number cannot be marshalled. *)
Example Marshal_DurationRequest_NaN :
  Marshal (Some {| Coordinates := Some [Some (Some [S754_nan])] |})
  = Err (UnsupportedValueError "NaN").
Proof. vm_compute. reflexivity. Qed.

(* ===================================================================== *)
(** * Properties of the decoder of coordinate rows                        *)
(* ===================================================================== *)

Lemma value_nested_ind (P : value -> Prop) :
  P JNull -> (forall b, P (JBool b)) -> (forall d, P (JNumber d)) ->
  (forall s, P (JString s)) ->
  (forall l, Forall P l -> P (JArray l)) ->
  (forall l, Forall (fun kv => P kv.2) l -> P (JObject l)) ->
  forall j, P j.
Proof.
  intros Hnull Hbool Hnum Hstr Harr Hobj.
  fix IH 1. intros [ | b | d | s | l | l ].
  - exact Hnull.
  - exact (Hbool b).
  - exact (Hnum d).
  - exact (Hstr s).
  - apply Harr. induction l as [ | x l IHl ]; constructor;
      [ exact (IH x) | exact IHl ].
  - apply Hobj. induction l as [ | [k x] l IHl ]; constructor;
      [ exact (IH x) | exact IHl ].
Qed.

Section EachLemmas.
Context {A B : Type} (f : A -> result B).

Lemma each_Ok_inv l l' :
  each f l = Ok l' -> Forall2 (fun x y => f x = Ok y) l l'.
Proof.
  revert l'. induction l as [ | x l IH ]; simpl; intros l' H.
  - injection H as <-. constructor.
  - destruct (f x) as [ y | | ] eqn:Hx; simpl in H; try discriminate.
    destruct (each f l) as [ ys | | ] eqn:Hl; simpl in H; try discriminate.
    injection H as <-. constructor; auto.
Qed.

Lemma each_member_Ok_inv {K} (l : list (K * A)) l' :
  each_member f l = Ok l' ->
  Forall2 (fun x y => x.1 = y.1 /\ f x.2 = Ok y.2) l l'.
Proof.
  revert l'. induction l as [ | [k x] l IH ]; simpl; intros l' H.
  - injection H as <-. constructor.
  - destruct (f x) as [ y | | ] eqn:Hx; simpl in H; try discriminate.
    destruct (each_member f l) as [ ys | | ] eqn:Hl; simpl in H;
      try discriminate.
    injection H as <-. constructor; auto.
Qed.

(** When every element decodes or fails with an error, as [p] tells, so
    does the sequence. *)
Lemma each_decides (p : A -> bool) l :
  Forall (fun x => if p x then exists y, f x = Ok y
                   else exists e, f x = Err e) l ->
  if forallb p l then exists l', each f l = Ok l'
  else exists e, each f l = Err e.
Proof.
  induction 1 as [ | x l Hx _ IH ]; simpl; [ eauto | ].
  destruct (p x); simpl.
  - destruct Hx as [y ->]. simpl. destruct (forallb p l).
    + destruct IH as [l' ->]. simpl. eauto.
    + destruct IH as [e ->]. simpl. eauto.
  - destruct Hx as [e ->]. simpl. eauto.
Qed.

Lemma each_member_decides {K} (p : A -> bool) (l : list (K * A)) :
  Forall (fun kv => if p kv.2 then exists y, f kv.2 = Ok y
                    else exists e, f kv.2 = Err e) l ->
  if forallb (fun kv => let '(_, x) := kv in p x) l
  then exists l', each_member f l = Ok l'
  else exists e, each_member f l = Err e.
Proof.
  induction 1 as [ | [k x] l Hx _ IH ]; simpl in *; [ eauto | ].
  destruct (p x); simpl.
  - destruct Hx as [y ->]. simpl.
    destruct (forallb _ l).
    + destruct IH as [l' ->]. simpl. eauto.
    + destruct IH as [e ->]. simpl. eauto.
  - destruct Hx as [e ->]. simpl. eauto.
Qed.
End EachLemmas.

(** [valueInterface] fails exactly on a document with a number out of the
    float64 range, and never panics. *)
Lemma valueInterface_decides j :
  if in_range j then exists v, valueInterface j = Ok v
  else exists e, valueInterface j = Err e.
Proof.
  induction j as [ | b | d | s | l IH | l IH ] using value_nested_ind;
    simpl; eauto.
  - unfold convertNumber. case_bool_decide as Hd.
    + destruct Hd as [f ->]. eauto.
    + destruct (strconv.ParseFloat64 d) as [f | ] eqn:Hf; [ | eauto ].
      exfalso. apply Hd. eauto.
  - pose proof (each_decides valueInterface in_range l IH) as H.
    destruct (forallb in_range l).
    + destruct H as [l' ->]. simpl. eauto.
    + destruct H as [e ->]. simpl. eauto.
  - pose proof (each_member_decides valueInterface in_range l IH) as H.
    destruct (forallb _ l).
    + destruct H as [l' ->]. simpl. eauto.
    + destruct H as [e ->]. simpl. eauto.
Qed.

Lemma each_valueInterface_decides l :
  if forallb in_range l then exists l', each valueInterface l = Ok l'
  else exists e, each valueInterface l = Err e.
Proof.
  apply each_decides, Forall_forall. intros j _. apply valueInterface_decides.
Qed.

(** What the switch of [UnmarshalJSON] makes of a decoded element is what
    the element rule says of the JSON element. *)
Lemma UnmarshalJSON_elem_rule j v :
  valueInterface j = Ok v -> UnmarshalJSON_elem v = sentinel_rule j.
Proof.
  destruct j as [ | b | d | s | l | l ]; simpl; intros H.
  - by injection H as <-.
  - by injection H as <-.
  - unfold convertNumber, strconv.ParseFloat64, strconv.ParseFloat in H.
    unfold float64_of_decimal.
    destruct (strconv.round_decimal 53 1024 d); try discriminate;
      by injection H as <-.
  - by injection H as <-.
  - destruct (each valueInterface l); simpl in H; try discriminate.
    by injection H as <-.
  - destruct (each_member valueInterface l); simpl in H; try discriminate.
    by injection H as <-.
Qed.

Lemma elems_foldl_append {A B} (g : A -> B) (l : list A) (s : slice B) :
  elems (foldl (fun recv v => append recv (g v)) s l) = elems s ++ (g <$> l).
Proof.
  revert s. induction l as [ | x l IH ]; intros s; simpl.
  - by rewrite app_nil_r.
  - rewrite IH. unfold append at 1. simpl. by rewrite <- app_assoc.
Qed.

(** The rows of TestLatLonPairJSONUnmarshal: a null entry decodes to the
    sentinel, a zero to zero. *)
Example UnmarshalJSON_test_rows :
  UnmarshalJSON (JArray [JInt 0; JInt 2910; JNull])
    = Ok (Some [float32_of_int 0; float32_of_int 2910; NoPathDuration])
  /\ UnmarshalJSON (JArray [JInt 2903; JInt 0; JInt 5839])
    = Ok (Some [float32_of_int 2903; float32_of_int 0; float32_of_int 5839])
  /\ UnmarshalJSON (JArray [JInt 4695; JInt 5745; JInt 0])
    = Ok (Some [float32_of_int 4695; float32_of_int 5745; float32_of_int 0]).
Proof. repeat split; vm_compute; reflexivity. Qed.

Example UnmarshalJSON_other_types :
  UnmarshalJSON (JArray [JString "x"; JBool true; JArray [JInt 1]; JObject []])
    = Ok (Some [NoPathDuration; NoPathDuration; NoPathDuration; NoPathDuration]).
Proof. vm_compute; reflexivity. Qed.

Example UnmarshalJSON_empty_array : UnmarshalJSON (JArray []) = Ok None.
Proof. reflexivity. Qed.

Lemma UnmarshalJSON_array l l' :
  each valueInterface l = Ok l' ->
  exists recv, UnmarshalJSON (JArray l) = Ok recv
               /\ elems recv = sentinel_rule <$> l.
Proof.
  intros H. unfold UnmarshalJSON. simpl. rewrite H. simpl.
  eexists; split; [ reflexivity | ].
  rewrite elems_foldl_append. simpl.
  apply each_Ok_inv in H.
  induction H as [ | j v l l' Hj _ IH ]; simpl; [ done | ].
  f_equal; [ by apply UnmarshalJSON_elem_rule | exact IH ].
Qed.

(** C2, as stated, fails: the array [[1e999]] holds a numeric JSON value,
    and decoding it yields an error, not a row with a converted element. *)
Lemma UnmarshalJSON_number_out_of_range :
  UnmarshalJSON (JArray [JNumber (strconv.Decimal false 1 999)])
    = Err (UnmarshalTypeError "number" "float64")
  /\ ~ (exists recv,
          UnmarshalJSON (JArray [JNumber (strconv.Decimal false 1 999)]) = Ok recv
          /\ elems recv = sentinel_rule <$> [JNumber (strconv.Decimal false 1 999)]).
Proof.
  assert (UnmarshalJSON (JArray [JNumber (strconv.Decimal false 1 999)])
          = Err (UnmarshalTypeError "number" "float64")) as H
    by (vm_compute; reflexivity).
  split; [ exact H | ].
  rewrite H. intros (recv & Hr & _). discriminate Hr.
Qed.

(** C2, amended: for every JSON array whose numbers all lie in the float64
    range, [UnmarshalJSON] succeeds and maps each element by the rule: null
    to the sentinel [NoPathDuration], a number to the float32 conversion of
    its float64 value, any other type to the sentinel; an element spelling
    zero stays a zero, which is not the sentinel. *)
Theorem UnmarshalJSON_sentinel_rule (l : list value) :
  forallb in_range l = true ->
  exists recv,
    UnmarshalJSON (JArray l) = Ok recv
    /\ elems recv = sentinel_rule <$> l
    /\ forall i s e,
         l !! i = Some (JNumber (strconv.Decimal s 0 e)) ->
         elems recv !! i = Some (S754_zero s)
         /\ S754_zero s <> NoPathDuration.
Proof.
  intros Hl. pose proof (each_valueInterface_decides l) as H.
  rewrite Hl in H. destruct H as [l' Hl'].
  destruct (UnmarshalJSON_array l l' Hl') as (recv & Hrecv & Helems).
  exists recv. split; [ exact Hrecv | ]. split; [ exact Helems | ].
  intros i s e Hi. split; [ | discriminate ].
  rewrite Helems, list_lookup_fmap, Hi. reflexivity.
Qed.

Lemma UnmarshalJSON_sentinel_rule_witness :
  forallb in_range [JInt 0; JInt 2910; JNull] = true
  /\ exists recv,
       UnmarshalJSON (JArray [JInt 0; JInt 2910; JNull]) = Ok recv
       /\ elems recv = sentinel_rule <$> [JInt 0; JInt 2910; JNull]
       /\ forall i s e,
            [JInt 0; JInt 2910; JNull] !! i = Some (JNumber (strconv.Decimal s 0 e)) ->
            elems recv !! i = Some (S754_zero s)
            /\ S754_zero s <> NoPathDuration.
Proof.
  split; [ vm_compute; reflexivity | ].
  apply (UnmarshalJSON_sentinel_rule [JInt 0; JInt 2910; JNull]).
  vm_compute. reflexivity.
Defined.

(** C3, as stated, fails at the top-level value [null]: it is not an array,
    and decoding it is not an error (the row becomes nil). *)
Lemma UnmarshalJSON_null_no_error :
  UnmarshalJSON JNull = Ok None
  /\ ~ (is_Err (UnmarshalJSON JNull) <-> ~ (exists l, JNull = JArray l)).
Proof.
  split; [ reflexivity | ].
  intros [_ H]. apply H. intros [l Hl]. discriminate.
Qed.

(** C3, amended: [UnmarshalJSON] returns a decode error if and only if the
    top-level value is neither an array nor null, or is an array holding, at
    any depth, a number outside the float64 range. In every other case,
    whatever the types of the elements, it succeeds. *)
Theorem UnmarshalJSON_error_iff (b : value) :
  let fails :=
    (b <> JNull /\ ~ (exists l, b = JArray l))
    \/ (exists l, b = JArray l /\ forallb in_range l = false) in
  (is_Err (UnmarshalJSON b) <-> fails)
  /\ ((exists recv, UnmarshalJSON b = Ok recv) <-> ~ fails).
Proof.
  simpl.
  destruct b as [ | x | d | s | l | l ].
  1: { split; (split; [ simpl; try tauto | ]).
       - intros [ [H _] | (l & H & _) ]; [ done | discriminate ].
       - intros _ [ [H _] | (l & H & _) ]; [ done | discriminate ].
       - eauto. }
  4: { pose proof (each_valueInterface_decides l) as H.
       unfold UnmarshalJSON. simpl.
       destruct (forallb in_range l) eqn:Hl.
       - destruct H as [l' ->]. simpl. split; split.
         + done.
         + intros [ [_ H] | (l0 & [= <-] & H) ]; [ | congruence ].
           apply H. eauto.
         + intros _ [ [_ H] | (l0 & [= <-] & H) ]; [ | congruence ].
           apply H. eauto.
         + eauto.
       - destruct H as [e ->]. simpl. split; split.
         + intros _. right. eauto.
         + done.
         + intros [recv H]. discriminate.
         + intros H. exfalso. apply H. right. eauto. }
  all: split; split; simpl.
  all: try (intros _; left; split; [ discriminate | intros [l0 H0]; discriminate ]).
  all: try done.
  all: try (intros [recv H]; discriminate).
  all: intros H; exfalso; apply H; left;
       (split; [ discriminate | intros [l0 H0]; discriminate ]).
Qed.

(* ===================================================================== *)
(** * Properties of the query parameter encoder                           *)
(* ===================================================================== *)

Lemma valueInterface_stored j v : valueInterface j = Ok v -> stored v.
Proof.
  destruct j as [ | b | d | s | l | l ]; simpl; intros H.
  - by injection H as <-.
  - by injection H as <-.
  - unfold convertNumber in H. destruct (strconv.ParseFloat64 d);
      [ by injection H as <- | discriminate ].
  - by injection H as <-.
  - destruct (each valueInterface l); simpl in H; try discriminate.
    by injection H as <-.
  - destruct (each_member valueInterface l); simpl in H; try discriminate.
    by injection H as <-.
Qed.

Lemma Add_lookup key value (v : url.Values) k :
  url.Add key value v !! k
  = if decide (key = k) then Some (default [] (v !! key) ++ [value]) else v !! k.
Proof. unfold url.Add. apply lookup_insert. Qed.

(** After the loop over a map of stored values, a key holds exactly what
    its value contributes: a string or a bool, and nothing for any other
    stored type. The loop neither fails nor panics. *)
Lemma toURLValues_range_stored (recv : gmap string any) :
  (forall k v, recv !! k = Some v -> stored v) ->
  exists vals, toURLValues_range recv = Ok vals
               /\ forall k, vals !! k = recv !! k ≫= emitted.
Proof.
  unfold toURLValues_range.
  apply (map_fold_weak_ind
    (fun r (m : gmap string any) =>
       (forall k v, m !! k = Some v -> stored v) ->
       exists vals, r = Ok vals /\ forall k, vals !! k = m !! k ≫= emitted)).
  - intros _. exists ∅. split; [ done | ]. intros k. by rewrite !lookup_empty.
  - intros i x m r Hi IH Hst.
    destruct IH as (vals & -> & Hvals).
    { intros k v Hk. apply (Hst k). rewrite lookup_insert_ne; [ done | ].
      intros <-. congruence. }
    assert (vals !! i = None) as Hnone by (by rewrite Hvals, Hi).
    assert (stored x) as Hx by (apply (Hst i); by rewrite lookup_insert_eq).
    simpl.
    destruct x; simpl in Hx; try done; simpl;
      (eexists; split; [ reflexivity | ]); intros k;
      rewrite ?Add_lookup, lookup_insert; destruct (decide (i = k)) as [<- | ];
      simpl; rewrite ?Hnone; try done; by rewrite Hvals.
Qed.

Section DecodedMap.
Context {V : Type}.
Abbreviation put := (fun (m : gmap string V) (kv : string * V) => <[kv.1 := kv.2]> m).

Lemma foldl_insert_lookup_Some (l : list (string * V)) m0 k v :
  foldl put m0 l !! k = Some v -> m0 !! k = Some v \/ (k, v) ∈ l.
Proof.
  revert m0. induction l as [ | [k' v'] l IH ]; simpl; intros m0 H; [ by left | ].
  destruct (IH _ H) as [ H' | H' ].
  - rewrite lookup_insert in H'. destruct (decide (k' = k)) as [-> | ].
    + injection H' as ->. right. left.
    + by left.
  - right. by right.
Qed.

Lemma foldl_insert_lookup_is_Some (l : list (string * V)) m0 k :
  is_Some (m0 !! k) \/ k ∈ l.*1 -> is_Some (foldl put m0 l !! k).
Proof.
  revert m0. induction l as [ | [k' v'] l IH ]; simpl; intros m0 H.
  - destruct H as [ H | H ]; [ done | by apply elem_of_nil in H ].
  - apply IH. destruct H as [ H | H ].
    + left. rewrite lookup_insert. by destruct (decide (k' = k)).
    + apply elem_of_cons in H as [ -> | H ]; [ | by right ].
      left. by rewrite lookup_insert_eq.
Qed.
End DecodedMap.

(** The map [Unmarshal_map] builds from an object holds, under a key, the
    decoding of some member of that name; and it holds every name. *)
Lemma Unmarshal_map_object l recv :
  Unmarshal_map (JObject l) = Ok recv ->
  (forall k v, recv !! k = Some v ->
     exists j, (k, j) ∈ l /\ valueInterface j = Ok v)
  /\ (forall k j, (k, j) ∈ l -> is_Some (recv !! k)).
Proof.
  simpl. destruct (each_member valueInterface l) as [ l' | | ] eqn:Hl;
    simpl; try discriminate.
  intros [= <-]. apply each_member_Ok_inv in Hl. split.
  - intros k v H. apply foldl_insert_lookup_Some in H as [ H | H ];
      [ by rewrite lookup_empty in H | ].
    induction Hl as [ | [k1 j1] [k2 v2] l l' [Hk Hj] _ IH ];
      [ by apply elem_of_nil in H | ].
    simpl in *. subst k2. apply elem_of_cons in H as [ [= -> ->] | H ].
    + exists j1. split; [ left | done ].
    + destruct (IH H) as (j & Hin & Hv). exists j. split; [ by right | done ].
  - intros k j H. apply foldl_insert_lookup_is_Some. right.
    induction Hl as [ | [k1 j1] [k2 v2] l l' [Hk Hj] _ IH ];
      [ by apply elem_of_nil in H | ].
    simpl in *. subst k2. apply elem_of_cons in H as [ [= -> ->] | H ].
    + left.
    + right. by apply IH.
Qed.

Lemma not_emitted_null : not_emitted JNull.
Proof. intros v [= <-]. done. Qed.

Lemma not_emitted_number d : not_emitted (JNumber d).
Proof.
  intros v H. simpl in H. unfold convertNumber in H.
  destruct (strconv.ParseFloat64 d); [ by injection H as <- | discriminate ].
Qed.

Lemma not_emitted_array l : not_emitted (JArray l).
Proof.
  intros v H. simpl in H. destruct (each valueInterface l); simpl in H;
    [ by injection H as <- | discriminate.. ].
Qed.

Lemma sliceEncoder_not_emitted {A} (enc : A -> result value) s j :
  sliceEncoder enc s = Ok j -> not_emitted j.
Proof.
  destruct s as [ l | ]; simpl.
  - destruct (each enc l); simpl; try discriminate.
    intros [= <-]. apply not_emitted_array.
  - intros [= <-]. apply not_emitted_null.
Qed.

Lemma field_inv name omit v lf :
  field name omit v = Ok lf ->
  (omit = true /\ lf = []) \/ (omit = false /\ exists j, v = Ok j /\ lf = [(name, j)]).
Proof.
  unfold field. destruct omit.
  - intros [= <-]. by left.
  - destruct v as [ j | | ]; simpl; try discriminate.
    intros [= <-]. right. eauto.
Qed.

Lemma fields_cons_inv f fs l :
  fields (f :: fs) = Ok l ->
  exists lf ls, f = Ok lf /\ fields fs = Ok ls /\ l = lf ++ ls.
Proof.
  simpl. destruct f as [ lf | | ]; simpl; try discriminate.
  destruct (fields fs) as [ ls | | ]; simpl; try discriminate.
  intros [= <-]. eauto.
Qed.

(** The members of a marshalled [GeocodeRequest]: the member "autocomplete"
    is [true] and is there exactly when the flag is set; any other member
    is a number, an array or null. *)
Lemma GeocodeRequestEncoder_members r blob :
  GeocodeRequestEncoder r = Ok blob ->
  exists l, blob = JObject l
    /\ (forall k j, (k, j) ∈ l ->
          (k = "autocomplete" /\ j = JBool true /\ AutoComplete r = true)
          \/ (k <> "autocomplete" /\ not_emitted j))
    /\ (AutoComplete r = true -> ("autocomplete", JBool true) ∈ l).
Proof.
  unfold GeocodeRequestEncoder.
  destruct (fields _) as [ l | | ] eqn:Hl; simpl; try discriminate.
  intros [= <-]. exists l. split; [ done | ].
  apply fields_cons_inv in Hl as (l1 & r1 & H1 & Hl & ->).
  apply fields_cons_inv in Hl as (l2 & r2 & H2 & Hl & ->).
  apply fields_cons_inv in Hl as (l3 & r3 & H3 & Hl & ->).
  apply fields_cons_inv in Hl as (l4 & r4 & H4 & Hl & ->).
  apply fields_cons_inv in Hl as (l5 & r5 & H5 & Hl & ->).
  apply fields_cons_inv in Hl as (l6 & r6 & H6 & Hl & ->).
  injection Hl as <-.
  apply field_inv in H1, H2, H3, H4, H5, H6. split.
  - intros k j Hin. rewrite !elem_of_app in Hin.
    destruct Hin as [ Hin | [ Hin | [ Hin | [ Hin | [ Hin | [ Hin | Hin ] ] ] ] ] ].
    + destruct H1 as [ [_ ->] | (_ & j1 & Hj & ->) ];
        [ by apply elem_of_nil in Hin | ].
      apply list_elem_of_singleton in Hin as [= -> ->]. right.
      split; [ done | by eapply sliceEncoder_not_emitted ].
    + destruct H2 as [ [_ ->] | (_ & j1 & Hj & ->) ];
        [ by apply elem_of_nil in Hin | ].
      apply list_elem_of_singleton in Hin as [= -> ->]. right.
      injection Hj as <-. split; [ done | apply not_emitted_number ].
    + destruct H3 as [ [_ ->] | (_ & j1 & Hj & ->) ];
        [ by apply elem_of_nil in Hin | ].
      apply list_elem_of_singleton in Hin as [= -> ->]. right.
      split; [ done | by eapply sliceEncoder_not_emitted ].
    + destruct H4 as [ [_ ->] | (_ & j1 & Hj & ->) ];
        [ by apply elem_of_nil in Hin | ].
      apply list_elem_of_singleton in Hin as [= -> ->]. right.
      split; [ done | ].
      destruct (Proximity r) as [ llp | ]; simpl in Hj.
      * by eapply sliceEncoder_not_emitted.
      * injection Hj as <-. apply not_emitted_null.
    + destruct H5 as [ [_ ->] | (_ & j1 & Hj & ->) ];
        [ by apply elem_of_nil in Hin | ].
      apply list_elem_of_singleton in Hin as [= -> ->]. right.
      split; [ done | by eapply sliceEncoder_not_emitted ].
    + destruct H6 as [ [_ ->] | (Ha & j1 & Hj & ->) ];
        [ by apply elem_of_nil in Hin | ].
      apply list_elem_of_singleton in Hin as [= -> ->]. left.
      apply negb_false_iff in Ha. rewrite Ha in Hj. by injection Hj as <-.
    + by apply elem_of_nil in Hin.
  - intros Ha. rewrite !elem_of_app. do 5 right. left.
    destruct H6 as [ [Ho _] | (_ & j1 & Hj & ->) ].
    + rewrite Ha in Ho. discriminate.
    + rewrite Ha in Hj. injection Hj as <-. apply list_elem_of_singleton. done.
Qed.

Lemma each_no_panic {A B} (f : A -> result B) l :
  (forall x, no_panic (f x)) -> no_panic (each f l).
Proof.
  intros Hf. induction l as [ | x l IH ]; simpl; [ done | ].
  pose proof (Hf x) as Hx. destruct (f x); simpl; try done.
  destruct (each f l); simpl; done.
Qed.

Lemma each_member_no_panic {K A B} (f : A -> result B) (l : list (K * A)) :
  (forall x, no_panic (f x)) -> no_panic (each_member f l).
Proof.
  intros Hf. induction l as [ | [k x] l IH ]; simpl; [ done | ].
  pose proof (Hf x) as Hx. destruct (f x); simpl; try done.
  destruct (each_member f l); simpl; done.
Qed.

Lemma valueInterface_no_panic j : no_panic (valueInterface j).
Proof.
  pose proof (valueInterface_decides j) as H. intros Hp. rewrite Hp in H.
  destruct (in_range j); destruct H as [? H]; discriminate.
Qed.

Lemma Unmarshal_map_no_panic blob : no_panic (Unmarshal_map blob).
Proof.
  destruct blob as [ | b | d | s | l | l ]; try done. simpl.
  pose proof (each_member_no_panic (K := string) valueInterface l
                valueInterface_no_panic) as H.
  destruct (each_member valueInterface l); done.
Qed.

Lemma floatEncoder_no_panic prec emax f : no_panic (floatEncoder prec emax f).
Proof.
  destruct f as [ s | s | | s m e ]; simpl; try done.
  by destruct (strconv.shortest prec emax m e).
Qed.

Lemma sliceEncoder_no_panic {A} (enc : A -> result value) s :
  (forall x, no_panic (enc x)) -> no_panic (sliceEncoder enc s).
Proof.
  intros Henc. destruct s as [ l | ]; simpl; [ | done ].
  pose proof (each_no_panic enc l Henc). by destruct (each enc l).
Qed.

Lemma ptrEncoder_no_panic {A} (enc : A -> result value) p :
  (forall x, no_panic (enc x)) -> no_panic (ptrEncoder enc p).
Proof. intros Henc. destruct p; simpl; [ apply Henc | done ]. Qed.

Lemma field_no_panic name omit v : no_panic v -> no_panic (field name omit v).
Proof. intros Hv. unfold field. destruct omit; [ done | ]. by destruct v. Qed.

Lemma fields_no_panic fs : Forall no_panic fs -> no_panic (fields fs).
Proof.
  induction 1 as [ | f fs Hf _ IH ]; simpl; [ done | ].
  destruct f; simpl; try done. by destruct (fields fs).
Qed.

Lemma LatLonPairEncoder_no_panic llp : no_panic (LatLonPairEncoder llp).
Proof. apply sliceEncoder_no_panic. intros x. apply floatEncoder_no_panic. Qed.

Lemma GeocodeRequestEncoder_no_panic r : no_panic (GeocodeRequestEncoder r).
Proof.
  unfold GeocodeRequestEncoder.
  match goal with |- no_panic (rbind (fields ?fs) _) =>
    assert (no_panic (fields fs)) as H end.
  { apply fields_no_panic.
    repeat (apply Forall_cons; split; [ apply field_no_panic | ]);
      try apply Forall_nil; try done.
    - apply sliceEncoder_no_panic. done.
    - apply sliceEncoder_no_panic. done.
    - apply ptrEncoder_no_panic, LatLonPairEncoder_no_panic.
    - apply sliceEncoder_no_panic. intros x. apply floatEncoder_no_panic. }
  by destruct (fields _).
Qed.

(** What [toURLValues] returns for a request: for every key, nothing, except
    "autocomplete" = "true" when that flag is set. It never panics. *)
Lemma toURLValues_GeocodeRequest (r : GeocodeRequest) :
  (exists e, toURLValues (Some r) = Err e)
  \/ (exists vals, toURLValues (Some r) = Ok vals
        /\ forall k, vals !! k
             = if bool_decide (k = "autocomplete") && AutoComplete r
               then Some ["true"] else None).
Proof.
  unfold toURLValues, Marshal, Marshal_GeocodeRequest. simpl.
  pose proof (GeocodeRequestEncoder_no_panic r) as Hnp.
  destruct (GeocodeRequestEncoder r) as [ blob | e | ] eqn:Hblob; simpl;
    [ | left; eauto | done ].
  apply GeocodeRequestEncoder_members in Hblob as (l & -> & Hshape & Hauto).
  pose proof (Unmarshal_map_no_panic (JObject l)) as Hnp'.
  destruct (Unmarshal_map (JObject l)) as [ recv | e | ] eqn:Hrecv;
    [ | left; eauto | done ].
  apply Unmarshal_map_object in Hrecv as [Hfrom Hall].
  destruct (toURLValues_range_stored recv) as (vals & Hvals & Hlookup).
  { intros k v Hk. destruct (Hfrom k v Hk) as (j & _ & Hj).
    by eapply valueInterface_stored. }
  right. exists vals. split; [ exact Hvals | ].
  intros k. rewrite Hlookup.
  destruct (recv !! k) as [ v | ] eqn:Hk; simpl.
  - destruct (Hfrom k v Hk) as (j & Hin & Hj).
    destruct (Hshape k j Hin) as [ (-> & -> & ->) | (Hne & Hno) ].
    + injection Hj as <-. done.
    + rewrite (Hno v Hj). rewrite bool_decide_eq_false_2; done.
  - case_bool_decide as Hkey; simpl; [ | done ].
    destruct (AutoComplete r) eqn:Ha; [ | done ].
    subst k. destruct (Hall _ _ (Hauto eq_refl)) as [v Hv]. congruence.
Qed.

(** The arm of the switch for an unsigned integer does emit its decimal
    string, when it is given an unsigned integer. *)
Example toURLValues_case_uint :
  toURLValues_case "limit" (go_uint 5) ∅ = Ok {[ "limit" := ["5"] ]}.
Proof. vm_compute. reflexivity. Qed.

(** But the value that reaches the switch was decoded from JSON, where a
    number is a float64. *)
Example Unmarshal_map_limit :
  (blob <-- Marshal (Some {| Country := None; Limit := 5; Types := None;
                             Proximity := None; BoundingBox := None;
                             AutoComplete := false |}) ;;
   Unmarshal_map blob)
  = Ok {[ "limit" := go_float64 (float64_of_decimal (strconv.Decimal false 5 0)) ]}.
Proof. vm_compute. reflexivity. Qed.

(** With every field set, only the flag is encoded. *)
Example toURLValues_all_fields :
  toURLValues
    (Some {| Country := Some ["us"; "ca"]; Limit := 5; Types := Some ["poi"];
             Proximity := Some (Some [float32_of_int (-77); float32_of_int 38]);
             BoundingBox := Some [float32_of_int 1; float32_of_int 2;
                                  float32_of_int 3; float32_of_int 4];
             AutoComplete := true |})
  = Ok {[ "autocomplete" := ["true"] ]}.
Proof. vm_compute. reflexivity. Qed.

(** The arm for a coordinate pair, had it been reached (with the verb
    [%sf] it is written with). *)
Example toURLValues_case_ptr_LatLonPair :
  toURLValues_case "proximity"
    (go_ptr_LatLonPair (Some (Some [float32_of_int 1; float32_of_int 2]))) ∅
  = Ok {[ "proximity" := ["%!s(float32=1)f"; "%!s(float32=2)f"; "&[1 2]"] ]}.
Proof. vm_compute. reflexivity. Qed.

(** C1, at the failing input: encoding a [GeocodeRequest] with only [Limit]
    set (to 5) produces no parameter at all, where the specification has exactly
    one, limit=5. The float64 that the JSON round trip leaves under "limit"
    matches no arm of the type switch. *)
Theorem toURLValues_limit_only_is_empty :
  toURLValues (Some {| Country := None; Limit := 5; Types := None;
                       Proximity := None; BoundingBox := None;
                       AutoComplete := false |})
  = Ok ∅.
Proof. vm_compute. reflexivity. Qed.

(** The same holds of every typed field, for every request: no
    string list, unsigned integer, coordinate pair or float list is ever
    encoded. *)
Lemma toURLValues_drops_typed_fields (r : GeocodeRequest) vals :
  toURLValues (Some r) = Ok vals ->
  vals !! "country" = None /\ vals !! "limit" = None /\ vals !! "types" = None
  /\ vals !! "proximity" = None /\ vals !! "bbox" = None.
Proof.
  intros H. destruct (toURLValues_GeocodeRequest r) as [ [e He] | (v & Hv & Hk) ];
    [ congruence | ].
  assert (v = vals) as -> by congruence.
  rewrite !Hk. done.
Qed.

(** C5: for every [GeocodeRequest], a field that is unset, or whose JSON
    value is null, has no parameter in the encoded set: its key is absent,
    not bound to an empty or zero value. *)
Theorem toURLValues_omits_unset (r : GeocodeRequest) (key : string) vals :
  toURLValues (Some r) = Ok vals ->
  unset_or_null r key ->
  vals !! key = None.
Proof.
  intros H Hunset.
  destruct (toURLValues_GeocodeRequest r) as [ [e He] | (v & Hv & Hk) ];
    [ congruence | ].
  assert (v = vals) as -> by congruence.
  rewrite Hk.
  destruct Hunset as [ [-> _] | [ [-> _] | [ [-> _] | [ [-> _] | [ [-> _] | [-> Ha] ] ] ] ] ];
    try done.
  by rewrite Ha, andb_false_r.
Qed.

Lemma toURLValues_omits_unset_witness :
  let r := {| Country := Some ["us"]; Limit := 0; Types := None;
              Proximity := Some None; BoundingBox := None;
              AutoComplete := true |} in
  toURLValues (Some r) = Ok {[ "autocomplete" := ["true"] ]}
  /\ unset_or_null r "limit"
  /\ ({[ "autocomplete" := ["true"] ]} : url.Values) !! "limit" = None.
Proof.
  intros r.
  assert (toURLValues (Some r) = Ok {[ "autocomplete" := ["true"] ]}) as H
    by (vm_compute; reflexivity).
  assert (unset_or_null r "limit") as Hu
    by (right; left; split; reflexivity).
  split; [ exact H | ]. split; [ exact Hu | ].
  exact (toURLValues_omits_unset r "limit" _ H Hu).
Defined.

(** A nil filter encodes to the empty set, without error. *)
Lemma toURLValues_nil : toURLValues (None : ptr GeocodeRequest) = Ok ∅.
Proof. reflexivity. Qed.

(* ===================================================================== *)
(** * The verb %f prints fixed-point notation                             *)
(* ===================================================================== *)

Lemma append_cons (c : ascii) (s1 s2 : string) :
  String c s1 +:+ s2 = String c (s1 +:+ s2).
Proof. reflexivity. Qed.

Lemma append_nil_r (s : string) : s +:+ "" = s.
Proof.
  induction s as [ | c s IH ]; [ done | ]. by rewrite append_cons, IH.
Qed.









(* ===================================================================== *)
(** * Properties of the two operations                                    *)
(* ===================================================================== *)

Lemma statusOK_spec (code : Z) : statusOK code = true <-> 200 <= code <= 299.
Proof. unfold statusOK. rewrite andb_true_iff, !Z.leb_le. done. Qed.

Lemma statusOK_false (code : Z) : ~ (200 <= code <= 299) -> statusOK code = false.
Proof.
  intros H. destruct (statusOK code) eqn:Hc; [ | done ].
  by apply statusOK_spec in Hc.
Qed.

Lemma io_bind_pure {A B} (a : A) (k : A -> IO B) :
  io_bind (pure_ (Ok a)) k = k a.
Proof. unfold io_bind, pure_. by destruct (k a). Qed.

Lemma io_bind_call {A B} ev (r : result A) (k : A -> IO B) :
  io_bind (call ev r) k
  = match r with
    | Ok a => (ev :: trace (k a), outcome (k a))
    | Err e => ([ev], Err e)
    | Panic => ([ev], Panic)
    end.
Proof. unfold io_bind, call. destruct r; [ by destruct (k a) | done.. ]. Qed.

(** The query string of a set that holds the access token only. *)
Lemma Encode_access_token_only (key : string) :
  url.Encode (url.Add "access_token" key ∅)
  = "access_token=" +:+ url.QueryEscape key.
Proof.
  unfold url.Encode, url.Add. rewrite lookup_empty. simpl.
  change (<["access_token" := [key]]> (∅ : url.Values))
    with ({[ "access_token" := [key] ]} : url.Values).
  rewrite map_to_list_singleton. simpl.
  rewrite lookup_singleton_eq. reflexivity.
Qed.

Lemma doGeoCodingRequest_Ok E c req vals :
  toURLValues (Request req) = Ok vals ->
  doGeoCodingRequest E c req
  = (res <~ call (EvGet (geocodingURL E c req vals))
              (http.Get (_httpClient E c) (geocodingURL E c req vals)) ;;
     defer EvClose
       (if negb (statusOK (http.StatusCode res))
        then pure_ (Err (errorString (http.Status res)))
        else
          blob <~ ReadAll (http.Body res) ;;
          gres <~ call (EvUnmarshal blob) (Unmarshal_GeocodeResponse E blob) ;;
          pure_ (Ok gres)))%io.
Proof.
  intros H. unfold doGeoCodingRequest. rewrite H, io_bind_pure. reflexivity.
Qed.

(** C4: for every response whose status code is outside 200..299, both
    [RequestDuration] and the geocoding request return an error whose
    message is the response's status text, and neither reads nor
    JSON-decodes the body; [statusOK c] holds exactly for 200 <= c <= 299. *)
Theorem non_2xx_is_status_error (E : Env) (c : Client) (res : http.Response) :
  ~ (200 <= http.StatusCode res <= 299) ->
  (forall code, statusOK code = true <-> 200 <= code <= 299)
  /\ (forall dreq blob,
        Marshal dreq = Ok blob ->
        http.Do (_httpClient E c)
          (NewRequest E "POST" (durationsURL E c) blob).1 = Ok res ->
        exists err,
          outcome (RequestDuration E c dreq) = Err err
          /\ Error err = http.Status res
          /\ trace (RequestDuration E c dreq)
             = [EvDo (NewRequest E "POST" (durationsURL E c) blob).1; EvClose]
          /\ forall b, EvUnmarshal b ∉ trace (RequestDuration E c dreq))
  /\ (forall req vals,
        toURLValues (Request req) = Ok vals ->
        http.Get (_httpClient E c) (geocodingURL E c req vals) = Ok res ->
        exists err,
          outcome (doGeoCodingRequest E c req) = Err err
          /\ Error err = http.Status res
          /\ trace (doGeoCodingRequest E c req)
             = [EvGet (geocodingURL E c req vals); EvClose]
          /\ forall b, EvUnmarshal b ∉ trace (doGeoCodingRequest E c req)).
Proof.
  intros Hbad. apply statusOK_false in Hbad.
  split; [ exact statusOK_spec | ]. split.
  - intros dreq blob Hblob Hdo. unfold RequestDuration.
    rewrite Hblob, io_bind_pure.
    destruct (NewRequest E "POST" (durationsURL E c) blob) as [req err] eqn:Hreq.
    simpl in Hdo. rewrite io_bind_call, Hdo, Hbad. simpl.
    exists (errorString (http.Status res)). repeat split.
    intros b Hin. repeat (apply elem_of_cons in Hin as [ Hin | Hin ]; [ done | ]).
    by apply elem_of_nil in Hin.
  - intros req vals Hvals Hget.
    rewrite (doGeoCodingRequest_Ok E c req vals Hvals).
    rewrite io_bind_call, Hget, Hbad. simpl.
    exists (errorString (http.Status res)). repeat split.
    intros b Hin. repeat (apply elem_of_cons in Hin as [ Hin | Hin ]; [ done | ]).
    by apply elem_of_nil in Hin.
Qed.

Lemma non_2xx_is_status_error_witness :
  let res := makeResp "Not Found" 404 NoBody in
  ~ (200 <= http.StatusCode res <= 299)
  /\ (exists err,
     outcome (RequestDuration testEnv plainClient
                (Some {| Coordinates := Some [] |})) = Err err
     /\ Error err = http.Status res
     /\ trace (RequestDuration testEnv plainClient
                 (Some {| Coordinates := Some [] |}))
        = [EvDo (NewRequest testEnv "POST" (durationsURL testEnv plainClient)
                   (JObject [("coordinates", JArray [])])).1; EvClose]
     /\ forall b, EvUnmarshal b ∉ trace (RequestDuration testEnv plainClient
                                           (Some {| Coordinates := Some [] |})))
  /\ (exists err,
        outcome (doGeoCodingRequest testEnv plainClient
                   {| Query := "Nowhere"; Mode := ""; Request := None |}) = Err err
        /\ Error err = http.Status res
        /\ trace (doGeoCodingRequest testEnv plainClient
                    {| Query := "Nowhere"; Mode := ""; Request := None |})
           = [EvGet (geocodingURL testEnv plainClient
                       {| Query := "Nowhere"; Mode := ""; Request := None |} ∅);
              EvClose]
        /\ forall b, EvUnmarshal b ∉ trace (doGeoCodingRequest testEnv plainClient
                       {| Query := "Nowhere"; Mode := ""; Request := None |})).
Proof.
  intros res.
  assert (~ (200 <= http.StatusCode res <= 299)) as Hbad by (simpl; lia).
  split; [ exact Hbad | ].
  destruct (non_2xx_is_status_error testEnv plainClient res Hbad) as (_ & Hd & Hg).
  split.
  - apply (Hd (Some {| Coordinates := Some [] |})
              (JObject [("coordinates", JArray [])])); reflexivity.
  - apply (Hg {| Query := "Nowhere"; Mode := ""; Request := None |} ∅);
      reflexivity.
Defined.

(** The unknown place of the tests: 404 surfaces as an error. *)
Example LookupPlace_unknown :
  LookupPlace testEnv plainClient "Nowhere"
  = ([EvGet "https://api.mapbox.com/geocoding/v5/mapbox.places/Nowhere.json?access_token=";
      EvClose],
     Err (errorString "Not Found")).
Proof. vm_compute. reflexivity. Qed.


Example doGeoCodingRequest_URL_permanent :
  trace (doGeoCodingRequest testEnv
           {| version := ""; apiKey := "pk.test"; httpClient := None |}
           {| Query := "-77.036600,38.897100"; Mode := GeocodePermanentPlaces;
              Request := Some {| Country := Some ["us"]; Limit := 1;
                                 Types := None; Proximity := None;
                                 BoundingBox := None; AutoComplete := true |} |})
  = [EvGet "https://api.mapbox.com/geocoding/v5/mapbox.places-permanent/-77.036600,38.897100.json?access_token=pk.test&autocomplete=true";
     EvClose].
Proof. vm_compute. reflexivity. Qed.

(** C7: for every client, [RequestDuration] makes its POST request for the
    URL base URL + /distances/{version}/mapbox/driving?access_token={key},
    the version being the client's own when it is not empty and "v1"
    otherwise; it fails before that only when the request cannot be
    marshalled. *)
Theorem RequestDuration_URL (E : Env) (c : Client) (dreq : ptr DurationRequest) :
  durationsURL E c
  = baseURL +:+ "/distances/"
      +:+ (if decide (version c = "") then "v1" else version c)
      +:+ "/mapbox/driving?access_token=" +:+ APIKey E c
  /\ match Marshal dreq with
     | Ok blob =>
         exists rest,
           trace (RequestDuration E c dreq)
           = EvDo (NewRequest E "POST" (durationsURL E c) blob).1 :: rest
     | _ => trace (RequestDuration E c dreq) = []
     end
  /\ (forall blob,
        url_Parse E (durationsURL E c) = None ->
        (NewRequest E "POST" (durationsURL E c) blob).1
        = Some {| http.Method := "POST"; http.URL := durationsURL E c;
                  http.ReqBody := blob |}).
Proof.
  split; [ | split ].
  - unfold durationsURL, APIVersion, defaultAPIVersion.
    destruct (decide (version c = "")) as [ -> | Hv ]; [ done | ].
    by rewrite decide_True.
  - unfold RequestDuration.
    destruct (Marshal dreq) as [ blob | e | ]; [ | done.. ].
    rewrite io_bind_pure.
    destruct (NewRequest E "POST" (durationsURL E c) blob) as [req err].
    rewrite io_bind_call. destruct (http.Do _ req); simpl; eauto.
  - intros blob H. unfold NewRequest. by rewrite H.
Qed.

Example RequestDuration_URL_default :
  durationsURL testEnv {| version := ""; apiKey := "pk.test"; httpClient := None |}
  = "https://api.mapbox.com/distances/v1/mapbox/driving?access_token=pk.test"
  /\ durationsURL testEnv {| version := "v2"; apiKey := "pk.test"; httpClient := None |}
  = "https://api.mapbox.com/distances/v2/mapbox/driving?access_token=pk.test".
Proof. split; reflexivity. Qed.

(** C10: for a nil filter, the common case since [LookupPlace] always passes
    one, [toURLValues] returns the empty set and no error, and the geocoding
    call goes on to its GET with access_token as the only parameter. *)
Theorem LookupPlace_nil_filter (E : Env) (c : Client) (query : string) :
  toURLValues (None : ptr GeocodeRequest) = Ok ∅
  /\ LookupPlace E c query
     = doGeoCodingRequest E c {| Query := query; Mode := ""; Request := None |}
  /\ url.Add "access_token" (APIKey E c) ∅ = {[ "access_token" := [APIKey E c] ]}
  /\ exists rest,
       trace (LookupPlace E c query)
       = EvGet (baseURL +:+ "/geocoding/v5/mapbox.places/" +:+ query
                  +:+ ".json?access_token=" +:+ url.QueryEscape (APIKey E c))
           :: rest.
Proof.
  split; [ reflexivity | ]. split; [ reflexivity | ]. split; [ reflexivity | ].
  unfold LookupPlace.
  rewrite (doGeoCodingRequest_Ok E c
             {| Query := query; Mode := ""; Request := None |} ∅ toURLValues_nil),
    io_bind_call.
  unfold geocodingURL. rewrite Encode_access_token_only. simpl.
  destruct (http.Get _ _); simpl; eauto.
Qed.


(** The defaults of cmd/mapbox-revgeocode: lat 38.8971, lon -77.0366. *)
Example LookupLatLon_white_house :
  Query (LookupLatLon_request (f64 388971 (-4)) (f64 (-770366) (-4)))
  = "-77.036600,38.897100".
Proof. vm_compute. reflexivity. Qed.

(** C9: [RequestDuration] drops the error of [http.NewRequest]. When the
    durations URL of a client does not parse, the request is nil, and that
    nil request is what is handed to the HTTP client: the first thing the
    operation does is that call, and what the caller gets is what the call
    gives, not the parse error. *)
Theorem RequestDuration_drops_NewRequest_error
    (E : Env) (c : Client) (dreq : ptr DurationRequest) blob err :
  Marshal dreq = Ok blob ->
  url_Parse E (durationsURL E c) = Some err ->
  NewRequest E "POST" (durationsURL E c) blob = (None, Some err)
  /\ (exists rest, trace (RequestDuration E c dreq) = EvDo None :: rest)
  /\ (forall e, http.Do (_httpClient E c) None = Err e ->
        RequestDuration E c dreq = ([EvDo None], Err e))
  /\ (http.Do (_httpClient E c) None = Panic ->
        RequestDuration E c dreq = ([EvDo None], Panic)).
Proof.
  intros Hblob Hparse.
  assert (NewRequest E "POST" (durationsURL E c) blob = (None, Some err)) as Hreq
    by (unfold NewRequest; by rewrite Hparse).
  split; [ exact Hreq | ].
  unfold RequestDuration. rewrite Hblob, io_bind_pure, Hreq, io_bind_call.
  split; [ | split ].
  - destruct (http.Do _ None); simpl; eauto.
  - by intros e ->.
  - by intros ->.
Qed.

Lemma RequestDuration_drops_NewRequest_error_witness :
  let dreq : ptr DurationRequest := Some {| Coordinates := None |} in
  let blob := JObject [("coordinates", JNull)] in
  let err := errorString "net/url: invalid control character in URL" in
  Marshal dreq = Ok blob
  /\ url_Parse testEnv (durationsURL testEnv badKeyClient) = Some err
  /\ NewRequest testEnv "POST" (durationsURL testEnv badKeyClient) blob
     = (None, Some err)
  /\ (exists rest,
        trace (RequestDuration testEnv badKeyClient dreq) = EvDo None :: rest)
  /\ (forall e, http.Do (_httpClient testEnv badKeyClient) None = Err e ->
        RequestDuration testEnv badKeyClient dreq = ([EvDo None], Err e))
  /\ (http.Do (_httpClient testEnv badKeyClient) None = Panic ->
        RequestDuration testEnv badKeyClient dreq = ([EvDo None], Panic)).
Proof.
  intros dreq blob err.
  assert (Marshal dreq = Ok blob) as Hblob by reflexivity.
  assert (url_Parse testEnv (durationsURL testEnv badKeyClient) = Some err)
    as Hparse by reflexivity.
  split; [ exact Hblob | ]. split; [ exact Hparse | ].
  exact (RequestDuration_drops_NewRequest_error testEnv badKeyClient dreq blob err
           Hblob Hparse).
Defined.

Example RequestDuration_bad_key :
  RequestDuration testEnv badKeyClient (Some {| Coordinates := None |})
  = ([EvDo None], Panic).
Proof. vm_compute. reflexivity. Qed.

(* ===================================================================== *)
(** * The client: its key, its version, its HTTP client                   *)
(* ===================================================================== *)

(** X1: after [SetAPIKey(key)] the key in use is [key], unless [key] is
    empty, in which case it is the key of the environment again; a later
    [SetAPIKey] replaces an earlier one; the version and the HTTP client in
    use are as before. *)
Theorem SetAPIKey_then_APIKey (E : Env) (c : Client) (key key' : string) :
  APIKey E (SetAPIKey c key)
  = (if decide (key = "") then defaultEnvAPIKey E else key)
  /\ SetAPIKey (SetAPIKey c key') key = SetAPIKey c key
  /\ APIVersion (SetAPIKey c key) = APIVersion c
  /\ _httpClient E (SetAPIKey c key) = _httpClient E c.
Proof.
  repeat split. unfold APIKey, SetAPIKey. simpl.
  destruct (decide (key = "")) as [ -> | Hk ]; [ done | ].
  by rewrite decide_True.
Qed.

Lemma foldl_WithHTTPClient (hcs : list (ptr http.Client)) (c : Client) :
  foldl (fun c opt => opt c) c (WithHTTPClient <$> hcs)
  = {| version := version c; apiKey := apiKey c;
       httpClient := default (httpClient c) (last hcs) |}.
Proof.
  revert c. induction hcs as [ | hc hcs IH ]; intros c; simpl.
  - by destruct c.
  - rewrite IH. simpl. rewrite last_cons. by destruct (last hcs).
Qed.

(** X2: [NewClient] never fails. Given any number of [WithHTTPClient]
    options, the client it makes has no key and no version of its own, so
    the key of the environment and the version "v1" are in use, and its HTTP
    client is the one of the last option; when there is no option, or the
    last one gives nil, [http.DefaultClient] is in use. *)
Theorem NewClient_WithHTTPClient (E : Env) (hcs : list (ptr http.Client)) :
  exists c,
    NewClient (WithHTTPClient <$> hcs) = Ok c
    /\ APIKey E c = defaultEnvAPIKey E
    /\ APIVersion c = "v1"
    /\ httpClient c = default None (last hcs)
    /\ _httpClient E c
       = match last hcs with
         | Some (Some hc) => hc
         | _ => DefaultClient E
         end.
Proof.
  eexists. split; [ reflexivity | ].
  rewrite foldl_WithHTTPClient. unfold APIKey, APIVersion, _httpClient. simpl.
  repeat split. by destruct (last hcs) as [ [ hc | ] | ].
Qed.

(* ===================================================================== *)
(** * Coordinate rows: size, nil, and what a round trip keeps              *)
(* ===================================================================== *)

Lemma foldl_append_Some {A B} (g : A -> B) (l : list A) (a : list B) :
  foldl (fun recv v => append recv (g v)) (Some a) l = Some (a ++ (g <$> l)).
Proof.
  revert a. induction l as [ | x l IH ]; intros a; simpl.
  - by rewrite app_nil_r.
  - change (append (Some a) (g x)) with (Some (a ++ [g x])).
    by rewrite IH, <- app_assoc.
Qed.

Lemma foldl_append_None {A B} (g : A -> B) (l : list A) :
  foldl (fun recv v => append recv (g v)) None l
  = match l with [] => None | _ => Some (g <$> l) end.
Proof.
  destruct l as [ | x l ]; [ done | ]. simpl.
  change (append None (g x)) with (Some [g x]). by rewrite foldl_append_Some.
Qed.

(** X3: when [UnmarshalJSON] succeeds, the row has as many elements as the
    array had, whatever their types; and the row is left nil exactly for
    [null] and for the empty array. *)
Theorem UnmarshalJSON_length (b : value) (recv : LatLonPair) :
  UnmarshalJSON b = Ok recv ->
  (recv = None <-> b = JNull \/ b = JArray [])
  /\ (forall l, b = JArray l -> len recv = length l).
Proof.
  unfold UnmarshalJSON. destruct b as [ | x | d | s | l | l ]; simpl;
    try discriminate.
  - intros [= <-]. split; [ split; auto | intros l; discriminate ].
  - destruct (each valueInterface l) as [ l' | | ] eqn:Hl; simpl;
      try discriminate.
    rewrite foldl_append_None. intros [= <-].
    apply each_Ok_inv, Forall2_length in Hl.
    destruct l' as [ | v l' ]; destruct l as [ | j l ]; try discriminate.
    + split; [ split; auto | ]. by intros l [= <-].
    + split.
      * split; [ discriminate | intros [ H | H ]; discriminate ].
      * intros l0 [= <-]. unfold len. simpl. rewrite length_fmap.
        simpl in Hl. lia.
Qed.

Lemma UnmarshalJSON_length_witness :
  UnmarshalJSON (JArray [JInt 0; JString "x"; JNull])
  = Ok (Some [float32_of_int 0; NoPathDuration; NoPathDuration])
  /\ ((Some [float32_of_int 0; NoPathDuration; NoPathDuration] = None
       <-> JArray [JInt 0; JString "x"; JNull] = JNull
           \/ JArray [JInt 0; JString "x"; JNull] = JArray [])
      /\ (forall l, JArray [JInt 0; JString "x"; JNull] = JArray l ->
            len (Some [float32_of_int 0; NoPathDuration; NoPathDuration])
            = length l)).
Proof.
  assert (UnmarshalJSON (JArray [JInt 0; JString "x"; JNull])
          = Ok (Some [float32_of_int 0; NoPathDuration; NoPathDuration])) as H
    by (vm_compute; reflexivity).
  split; [ exact H | ].
  exact (UnmarshalJSON_length _ _ H).
Defined.

Lemma float32Encoder_Ok (f : float32) (j : value) :
  float32Encoder f = Ok j -> is_number j = true.
Proof.
  unfold float32Encoder, floatEncoder.
  destruct f as [ s | s | | s m e ]; try discriminate.
  - by intros [= <-].
  - destruct (strconv.shortest 24 128 m e). by intros [= <-].
Qed.

Lemma float32Encoder_NoPathDuration :
  float32Encoder NoPathDuration = Ok (JInt (-1)).
Proof. vm_compute. reflexivity. Qed.

Lemma sentinel_rule_not_number (x : value) :
  is_number x = false -> sentinel_rule x = NoPathDuration.
Proof. by destruct x. Qed.

(** X4: a row that was decoded and is marshalled again does not give back
    the document it came from. Where the array had a null, or any element
    that is not a number, the new array has the number -1; every element of
    the new array is a number; and the empty array comes back as null. The
    sizes agree. *)
Theorem UnmarshalJSON_then_Marshal (l : list value) (recv : LatLonPair)
    (j : value) :
  UnmarshalJSON (JArray l) = Ok recv ->
  LatLonPairEncoder recv = Ok j ->
  match l with
  | [] => j = JNull
  | _ =>
      exists l',
        j = JArray l' /\ length l' = length l
        /\ forallb is_number l' = true
        /\ forall i x, l !! i = Some x -> is_number x = false ->
             l' !! i = Some (JInt (-1))
  end.
Proof.
  unfold UnmarshalJSON. simpl.
  destruct (each valueInterface l) as [ vs | | ] eqn:Hl; simpl; try discriminate.
  rewrite foldl_append_None. intros [= <-].
  apply each_Ok_inv in Hl.
  destruct Hl as [ | x v l vs Hx Hl ]; [ by intros [= <-] | ].
  set (row := UnmarshalJSON_elem <$> v :: vs).
  unfold LatLonPairEncoder, sliceEncoder.
  destruct (each float32Encoder row) as [ l' | | ] eqn:Hrow; simpl;
    try discriminate.
  intros [= <-]. exists l'. split; [ done | ].
  apply each_Ok_inv in Hrow.
  assert (Forall2 (fun x v => valueInterface x = Ok v) (x :: l) (v :: vs))
    as Hall by (by constructor).
  assert (length row = length (x :: l)) as Hlen
    by (unfold row; rewrite length_fmap; symmetry; by eapply Forall2_length).
  split; [ | split ].
  - change (length l' = length (x :: l)).
    rewrite <- Hlen. symmetry. by eapply Forall2_length.
  - apply forallb_forall. intros y Hy. apply list_elem_of_In in Hy.
    apply list_elem_of_lookup in Hy as [i Hi].
    destruct (Forall2_lookup_r _ _ _ _ _ Hrow Hi) as (f & _ & Hf).
    by eapply float32Encoder_Ok.
  - intros i y Hi Hy.
    destruct (Forall2_lookup_l _ _ _ _ _ Hall Hi) as (w & Hw & Hyw).
    assert (row !! i = Some NoPathDuration) as Hr.
    { unfold row. rewrite list_lookup_fmap, Hw. simpl. f_equal.
      rewrite (UnmarshalJSON_elem_rule y w Hyw).
      by apply sentinel_rule_not_number. }
    destruct (Forall2_lookup_l _ _ _ _ _ Hrow Hr) as (z & Hz & Hnz).
    rewrite float32Encoder_NoPathDuration in Hnz. by injection Hnz as <-.
Qed.

Lemma UnmarshalJSON_then_Marshal_witness :
  UnmarshalJSON (JArray [JInt 7; JNull; JString "x"])
  = Ok (Some [float32_of_int 7; NoPathDuration; NoPathDuration])
  /\ LatLonPairEncoder (Some [float32_of_int 7; NoPathDuration; NoPathDuration])
     = Ok (JArray [JInt 7; JInt (-1); JInt (-1)])
  /\ exists l',
       JArray [JInt 7; JInt (-1); JInt (-1)] = JArray l'
       /\ length l' = length [JInt 7; JNull; JString "x"]
       /\ forallb is_number l' = true
       /\ forall i x, [JInt 7; JNull; JString "x"] !! i = Some x ->
            is_number x = false -> l' !! i = Some (JInt (-1)).
Proof.
  assert (UnmarshalJSON (JArray [JInt 7; JNull; JString "x"])
          = Ok (Some [float32_of_int 7; NoPathDuration; NoPathDuration])) as H1
    by (vm_compute; reflexivity).
  assert (LatLonPairEncoder
            (Some [float32_of_int 7; NoPathDuration; NoPathDuration])
          = Ok (JArray [JInt 7; JInt (-1); JInt (-1)])) as H2
    by (vm_compute; reflexivity).
  split; [ exact H1 | ]. split; [ exact H2 | ].
  exact (UnmarshalJSON_then_Marshal [JInt 7; JNull; JString "x"] _ _ H1 H2).
Defined.

(* ===================================================================== *)
(** * Requests that cannot be marshalled                                  *)
(* ===================================================================== *)

Section EachErrors.
Context {A B : Type} (f : A -> result B) (P : error -> Prop).

(** As [each_decides], with what is known of the error. *)
Lemma each_decides_with (p : A -> bool) l :
  Forall (fun x => if p x then exists y, f x = Ok y
                   else exists e, P e /\ f x = Err e) l ->
  if forallb p l then exists l', each f l = Ok l'
  else exists e, P e /\ each f l = Err e.
Proof.
  induction 1 as [ | x l Hx _ IH ]; simpl; [ eauto | ].
  destruct (p x); simpl.
  - destruct Hx as [y ->]. simpl. destruct (forallb p l).
    + destruct IH as [l' ->]. simpl. eauto.
    + destruct IH as (e & He & ->). simpl. eauto.
  - destruct Hx as (e & He & ->). simpl. eauto.
Qed.

End EachErrors.

Lemma sliceEncoder_decides_with {A} (P : error -> Prop)
    (enc : A -> result value) (p : A -> bool) s :
  (forall x, if p x then exists y, enc x = Ok y
             else exists e, P e /\ enc x = Err e) ->
  if forallb p (elems s) then exists j, sliceEncoder enc s = Ok j
  else exists e, P e /\ sliceEncoder enc s = Err e.
Proof.
  intros Henc. destruct s as [ l | ]; simpl; [ | eauto ].
  induction l as [ | x l IH ]; simpl; [ eauto | ].
  pose proof (Henc x) as Hx. destruct (p x); simpl.
  - destruct Hx as [y ->]. simpl. destruct (forallb p l).
    + destruct IH as [j Hj]. destruct (each enc l); simpl in *;
        try discriminate. eauto.
    + destruct IH as (e & He & Hj). destruct (each enc l); simpl in *;
        try discriminate. injection Hj as ->. eauto.
  - destruct Hx as (e & He & ->). simpl. eauto.
Qed.


Lemma float32Encoder_decides (x : float32) :
  if is_finite x then exists j, float32Encoder x = Ok j
  else exists e, unsupported_float e /\ float32Encoder x = Err e.
Proof.
  unfold float32Encoder, floatEncoder, unsupported_float.
  destruct x as [ s | [ | ] | | s m e ]; simpl; eauto 6.
  destruct (strconv.shortest 24 128 m e). eauto.
Qed.

Lemma row_encoder_decides (p : ptr LatLonPair) :
  if row_finite p then exists j, ptrEncoder LatLonPairEncoder p = Ok j
  else exists e, unsupported_float e /\ ptrEncoder LatLonPairEncoder p = Err e.
Proof.
  destruct p as [ llp | ]; simpl; [ | eauto ].
  apply sliceEncoder_decides_with, float32Encoder_decides.
Qed.

Lemma sliceEncoder_null {A} (enc : A -> result value) (s : slice A) :
  sliceEncoder enc s = Ok JNull <-> s = None.
Proof.
  destruct s as [ l | ]; simpl; [ | done ].
  destruct (each enc l); simpl; split; discriminate.
Qed.

(** X5: a duration request is marshalled without error exactly when every
    coordinate is a finite number. Then the body of the request is an object
    with the one member "coordinates", which is null exactly when the slice
    is nil. With a NaN or an infinity among the coordinates, marshalling
    fails with the error [encoding/json] has for such a value, and
    [RequestDuration] returns that error without having called the HTTP
    client. *)
Theorem RequestDuration_non_finite (E : Env) (c : Client) (r : DurationRequest) :
  if coordinates_finite r
  then exists j, Marshal (Some r) = Ok (JObject [("coordinates", j)])
                 /\ (j = JNull <-> Coordinates r = None)
  else exists e, unsupported_float e /\ Marshal (Some r) = Err e
                 /\ RequestDuration E c (Some r) = ([], Err e).
Proof.
  unfold RequestDuration, Marshal, Marshal_DurationRequest. simpl.
  unfold DurationRequestEncoder, coordinates_finite. simpl.
  pose proof (sliceEncoder_decides_with unsupported_float
                (ptrEncoder LatLonPairEncoder) row_finite
                (Coordinates r) row_encoder_decides) as H.
  pose proof (sliceEncoder_null (ptrEncoder LatLonPairEncoder) (Coordinates r))
    as Hnull.
  destruct (forallb row_finite (elems (Coordinates r))).
  - destruct H as [j Hj]. rewrite Hj in *. simpl. eexists. split; [ done | ].
    rewrite <- Hnull. split; congruence.
  - destruct H as (e & He & ->). simpl. eauto.
Qed.

Lemma sliceEncoder_string_Ok (s : slice string) :
  exists j, sliceEncoder stringEncoder s = Ok j.
Proof.
  destruct s as [ l | ]; simpl; [ | eauto ].
  induction l as [ | x l [j Hj] ]; simpl; [ eauto | ].
  destruct (each stringEncoder l); simpl in *; try discriminate. eauto.
Qed.

Lemma field_Ok name omit v :
  (exists j, v = Ok j) -> exists lf, field name omit v = Ok lf.
Proof. intros [j ->]. unfold field. destruct omit; simpl; eauto. Qed.

Lemma field_decides_with (P : error -> Prop) name omit v (b : bool) :
  (omit = true -> b = true) ->
  (if b then exists j, v = Ok j else exists e, P e /\ v = Err e) ->
  if b then exists lf, field name omit v = Ok lf
  else exists e, P e /\ field name omit v = Err e.
Proof.
  intros Homit Hv. unfold field. destruct omit.
  - rewrite Homit by done. eauto.
  - destruct b.
    + destruct Hv as [j ->]. simpl. eauto.
    + destruct Hv as (e & He & ->). simpl. eauto.
Qed.

Lemma GeocodeRequestEncoder_decides (r : GeocodeRequest) :
  if filter_finite r then exists l, GeocodeRequestEncoder r = Ok (JObject l)
  else exists e, unsupported_float e /\ GeocodeRequestEncoder r = Err e.
Proof.
  unfold GeocodeRequestEncoder, filter_finite.
  destruct (field_Ok "country" (len (Country r) =? 0)%nat _
              (sliceEncoder_string_Ok (Country r))) as [l1 H1].
  destruct (field_Ok "limit" (Limit r =? 0)%N (Ok (uintEncoder (Limit r))))
    as [l2 H2]; [ eauto | ].
  destruct (field_Ok "types" (len (Types r) =? 0)%nat _
              (sliceEncoder_string_Ok (Types r))) as [l3 H3].
  destruct (field_Ok "autocomplete" (negb (AutoComplete r))
              (Ok (JBool (AutoComplete r)))) as [l6 H6]; [ eauto | ].
  assert (if row_finite (Proximity r)
          then exists lf, field "proximity" (is_nil (Proximity r))
                            (ptrEncoder LatLonPairEncoder (Proximity r)) = Ok lf
          else exists e, unsupported_float e
                 /\ field "proximity" (is_nil (Proximity r))
                      (ptrEncoder LatLonPairEncoder (Proximity r)) = Err e)
    as H4.
  { apply field_decides_with; [ | apply row_encoder_decides ].
    intros H0. by destruct (Proximity r). }
  assert (if forallb is_finite (elems (BoundingBox r))
          then exists lf, field "bbox" (len (BoundingBox r) =? 0)%nat
                            (sliceEncoder float32Encoder (BoundingBox r)) = Ok lf
          else exists e, unsupported_float e
                 /\ field "bbox" (len (BoundingBox r) =? 0)%nat
                      (sliceEncoder float32Encoder (BoundingBox r)) = Err e)
    as H5.
  { apply field_decides_with;
      [ | apply sliceEncoder_decides_with, float32Encoder_decides ].
    intros H0. apply Nat.eqb_eq in H0. unfold len in H0.
    by destruct (elems (BoundingBox r)). }
  cbn [fields]. rewrite H1, H2, H3, H6. cbn [rbind].
  destruct (row_finite (Proximity r)); simpl.
  - destruct H4 as [l4 ->]. cbn [rbind].
    destruct (forallb is_finite (elems (BoundingBox r))).
    + destruct H5 as [l5 ->]. simpl. eauto.
    + destruct H5 as (e & He & ->). simpl. eauto.
  - destruct H4 as (e & He & ->). simpl. eauto.
Qed.

(** X6: a geocoding filter is marshalled without error exactly when the
    coordinates of [Proximity] and of [BoundingBox] are finite numbers. With
    a NaN or an infinity among them, [toURLValues] fails with the error of
    [encoding/json], and the geocoding request returns that error without
    having called the HTTP client. *)
Theorem doGeoCodingRequest_non_finite (E : Env) (c : Client)
    (query : string) (mode : GeocodeMode) (r : GeocodeRequest) :
  if filter_finite r
  then exists l, Marshal (Some r) = Ok (JObject l)
  else exists e, unsupported_float e
         /\ Marshal (Some r) = Err e
         /\ toURLValues (Some r) = Err e
         /\ doGeoCodingRequest E c
              {| Query := query; Mode := mode; Request := Some r |}
            = ([], Err e).
Proof.
  pose proof (GeocodeRequestEncoder_decides r) as H.
  unfold doGeoCodingRequest, toURLValues, Marshal, Marshal_GeocodeRequest.
  simpl. destruct (filter_finite r); [ done | ].
  destruct H as (e & He & ->). simpl. eauto 6.
Qed.

Example RequestDuration_NaN :
  RequestDuration testEnv plainClient
    (Some {| Coordinates := Some [Some (Some [float32_of_int 1; S754_nan])] |})
  = ([], Err (UnsupportedValueError "NaN")).
Proof. vm_compute. reflexivity. Qed.

Example ReverseGeocoding_infinite_bbox :
  ReverseGeocoding testEnv plainClient
    {| Query := "x"; Mode := "";
       Request := Some {| Country := None; Limit := 0; Types := None;
                          Proximity := None;
                          BoundingBox := Some [S754_infinity true];
                          AutoComplete := true |} |}
  = ([], Err (UnsupportedValueError "-Inf")).
Proof. vm_compute. reflexivity. Qed.

(* ===================================================================== *)
(** * What the query parameter encoder keeps of any value                 *)
(* ===================================================================== *)

Lemma foldl_insert_lookup {V} (l : list (string * V)) (m0 : gmap string V) k :
  foldl (fun m kv => <[kv.1 := kv.2]> m) m0 l !! k
  = match member k l with Some v => Some v | None => m0 !! k end.
Proof.
  revert m0. induction l as [ | [k' x] l IH ]; intros m0; simpl; [ done | ].
  rewrite IH. destruct (member k l); [ done | ].
  rewrite lookup_insert. by destruct (decide (k' = k)).
Qed.

Lemma member_Forall2 {V W} (R : V -> W -> Prop) k
    (l : list (string * V)) (l' : list (string * W)) :
  Forall2 (fun x y => x.1 = y.1 /\ R x.2 y.2) l l' ->
  option_Forall2 R (member k l) (member k l').
Proof.
  induction 1 as [ | [k1 x] [k2 y] l l' [Hk Hxy] _ IH ]; simpl in *;
    [ constructor | ].
  subst k2. destruct IH; [ by constructor | ].
  destruct (decide (k1 = k)); by constructor.
Qed.

Lemma emitted_valueInterface j v :
  valueInterface j = Ok v -> emitted v = emitted_json j.
Proof.
  destruct j as [ | b | d | s | l | l ]; simpl; intros H.
  - by injection H as <-.
  - by injection H as <-.
  - unfold convertNumber in H. destruct (strconv.ParseFloat64 d);
      [ by injection H as <- | discriminate ].
  - by injection H as <-.
  - destruct (each valueInterface l); simpl in H; try discriminate.
    by injection H as <-.
  - destruct (each_member valueInterface l); simpl in H; try discriminate.
    by injection H as <-.
Qed.

(** X7: what [toURLValues] makes of a value of any type depends on the JSON
    document the value marshals to, and on nothing else. For null the result
    is the empty set. For an object, a member that is a string contributes
    that string under its name and a member that is a bool contributes
    "true" or "false"; a member of any other kind (number, array, object,
    null) contributes nothing; of members with one name the last counts; and
    the call fails only if a number of the document is out of the float64
    range. For any other document the call fails with the type error of the
    decoder. It never panics. *)
Theorem toURLValues_of_document {A} `{Marshaler A} (v : A) (blob : value) :
  Marshal v = Ok blob ->
  match blob with
  | JNull => toURLValues v = Ok ∅
  | JObject l =>
      if in_range blob
      then exists vals,
             toURLValues v = Ok vals
             /\ forall k, vals !! k = member k l ≫= emitted_json
      else is_Err (toURLValues v)
  | _ =>
      toURLValues v
      = Err (UnmarshalTypeError (kind blob) "map[string]interface {}")
  end.
Proof.
  intros Hblob. unfold toURLValues. rewrite Hblob. simpl.
  destruct blob as [ | b | d | s | l | l ]; try done.
  pose proof (each_member_decides (K := string) valueInterface in_range l) as Hl.
  simpl. destruct (forallb _ l).
  - destruct Hl as [l' Hl'].
    { apply Forall_forall. intros kv _. apply valueInterface_decides. }
    rewrite Hl'. simpl.
    apply each_member_Ok_inv in Hl'.
    destruct (toURLValues_range_stored
                (foldl (fun m kv => <[kv.1 := kv.2]> m) ∅ l'))
      as (vals & Hvals & Hlookup).
    { intros k x. rewrite foldl_insert_lookup, lookup_empty.
      intros Hx.
      pose proof (member_Forall2 (fun j y => valueInterface j = Ok y) k l l' Hl')
        as Hm.
      destruct Hm as [ j y Hj | ]; [ | discriminate ].
      injection Hx as ->. by eapply valueInterface_stored. }
    exists vals. split; [ exact Hvals | ].
    intros k. rewrite Hlookup, foldl_insert_lookup, lookup_empty.
    pose proof (member_Forall2 (fun j y => valueInterface j = Ok y) k l l' Hl')
      as Hm.
    destruct Hm as [ j y Hj | ]; simpl; [ | done ].
    by apply emitted_valueInterface.
  - destruct Hl as [e He].
    { apply Forall_forall. intros kv _. apply valueInterface_decides. }
    rewrite He. done.
Qed.

Lemma toURLValues_of_document_witness :
  let r := {| Country := Some ["us"]; Limit := 5; Types := None;
              Proximity := None; BoundingBox := None; AutoComplete := true |} in
  let l := [("country", JArray [JString "us"]); ("limit", JInt 5);
            ("autocomplete", JBool true)] in
  Marshal (Some r) = Ok (JObject l)
  /\ exists vals,
       toURLValues (Some r) = Ok vals
       /\ forall k, vals !! k = member k l ≫= emitted_json.
Proof.
  intros r l.
  assert (Marshal (Some r) = Ok (JObject l)) as H by (vm_compute; reflexivity).
  split; [ exact H | ].
  pose proof (toURLValues_of_document (Some r) (JObject l) H) as Hdoc.
  assert (in_range (JObject l) = true) as Hr by (vm_compute; reflexivity).
  rewrite Hr in Hdoc. exact Hdoc.
Defined.

(** X8: for every geocoding filter, whatever its fields hold, the
    parameters [toURLValues] returns are determined by the flag
    [AutoComplete] alone: autocomplete=true when it is set, and no parameter
    at all when it is not. *)
Theorem toURLValues_only_autocomplete (r : GeocodeRequest) (vals : url.Values) :
  toURLValues (Some r) = Ok vals ->
  vals = if AutoComplete r then {[ "autocomplete" := ["true"] ]} else ∅.
Proof.
  intros H. destruct (toURLValues_GeocodeRequest r) as [ [e He] | (v & Hv & Hk) ];
    [ congruence | ].
  assert (v = vals) as -> by congruence.
  apply map_eq. intros k. rewrite Hk.
  destruct (AutoComplete r); case_bool_decide as Hkey; simpl.
  - subst k. by rewrite lookup_singleton_eq.
  - by rewrite lookup_singleton_ne.
  - by rewrite lookup_empty.
  - by rewrite lookup_empty.
Qed.

Lemma toURLValues_only_autocomplete_witness :
  let r := {| Country := Some ["us"; "ca"]; Limit := 3; Types := Some ["poi"];
              Proximity := Some (Some [float32_of_int 2; float32_of_int 1]);
              BoundingBox := None; AutoComplete := false |} in
  toURLValues (Some r) = Ok ∅
  /\ (∅ : url.Values) = if AutoComplete r then {[ "autocomplete" := ["true"] ]} else ∅.
Proof.
  intros r.
  assert (toURLValues (Some r) = Ok ∅) as H by (vm_compute; reflexivity).
  split; [ exact H | ].
  exact (toURLValues_only_autocomplete r ∅ H).
Defined.

Lemma Encode_access_token_autocomplete (key : string) :
  url.Encode (url.Add "access_token" key {[ "autocomplete" := ["true"] ]})
  = "access_token=" +:+ url.QueryEscape key +:+ "&autocomplete=true".
Proof. vm_compute. reflexivity. Qed.

(** X9: the URL of a geocoding request, in full. Whatever the filter holds,
    the query string is access_token= and the escaped key, followed by
    &autocomplete=true when the filter has that flag set, and by nothing
    otherwise; the query of the request stands in the path as it is. *)
Theorem doGeoCodingRequest_query_string (E : Env) (c : Client)
    (req : ReverseGeocodeRequest) (vals : url.Values) :
  toURLValues (Request req) = Ok vals ->
  exists rest,
    trace (doGeoCodingRequest E c req)
    = EvGet (baseURL +:+ "/geocoding/v5/" +:+ GeocodeMode_String (Mode req)
               +:+ "/" +:+ Query req +:+ ".json?access_token="
               +:+ url.QueryEscape (APIKey E c)
               +:+ (if autocomplete_set req then "&autocomplete=true" else ""))
        :: rest.
Proof.
  intros Hvals.
  rewrite (doGeoCodingRequest_Ok E c req vals Hvals), io_bind_call.
  assert (url.Encode (url.Add "access_token" (APIKey E c) vals)
          = "access_token=" +:+ url.QueryEscape (APIKey E c)
              +:+ (if autocomplete_set req then "&autocomplete=true" else ""))
    as Henc.
  { unfold autocomplete_set.
    destruct (Request req) as [ r | ] eqn:Hr.
    - destruct (toURLValues_GeocodeRequest r) as [ [e He] | (v & Hv & Hk) ];
        [ discriminate (eq_trans (eq_sym He) Hvals) | ].
      assert (v = vals) as ->
        by (by injection (eq_trans (eq_sym Hv) Hvals)).
      assert (vals = if AutoComplete r
                     then {[ "autocomplete" := ["true"] ]} else ∅) as ->.
      { apply map_eq. intros k. rewrite Hk.
        destruct (AutoComplete r); case_bool_decide as Hkey; simpl.
        - subst k. by rewrite lookup_singleton_eq.
        - by rewrite lookup_singleton_ne.
        - by rewrite lookup_empty.
        - by rewrite lookup_empty. }
      destruct (AutoComplete r).
      + apply Encode_access_token_autocomplete.
      + by rewrite Encode_access_token_only, append_nil_r.
    - rewrite toURLValues_nil in Hvals. injection Hvals as <-.
      by rewrite Encode_access_token_only, append_nil_r. }
  unfold geocodingURL, GeocodeMode_String, GeocodePlaces. rewrite Henc.
  destruct (http.Get _ _); simpl; eauto.
Qed.

Lemma doGeoCodingRequest_query_string_witness :
  let req := {| Query := "Paris"; Mode := "";
                Request := Some {| Country := Some ["fr"]; Limit := 1;
                                   Types := None; Proximity := None;
                                   BoundingBox := None;
                                   AutoComplete := true |} |} in
  let c := {| version := ""; apiKey := "pk.a b"; httpClient := None |} in
  toURLValues (Request req) = Ok {[ "autocomplete" := ["true"] ]}
  /\ exists rest,
       trace (doGeoCodingRequest testEnv c req)
       = EvGet "https://api.mapbox.com/geocoding/v5/mapbox.places/Paris.json?access_token=pk.a+b&autocomplete=true"
           :: rest.
Proof.
  intros req c.
  assert (toURLValues (Request req) = Ok {[ "autocomplete" := ["true"] ]}) as H
    by (vm_compute; reflexivity).
  split; [ exact H | ].
  exact (doGeoCodingRequest_query_string testEnv c req _ H).
Defined.

(* ===================================================================== *)
(** * The runs of the two operations                                      *)
(* ===================================================================== *)

Lemma outcome_defer {A} ev (m : IO A) : outcome (defer ev m) = outcome m.
Proof. reflexivity. Qed.

Lemma trace_defer {A} ev (m : IO A) : trace (defer ev m) = trace m ++ [ev].
Proof. reflexivity. Qed.

(** What both operations do with a response. *)
Lemma response_run {A} (res : http.Response) (dec : string -> result A) :
  let m := defer EvClose
             (if negb (statusOK (http.StatusCode res))
              then pure_ (Err (errorString (http.Status res)))
              else
                blob <~ ReadAll (http.Body res) ;;
                r <~ call (EvUnmarshal blob) (dec blob) ;;
                pure_ (Ok r))%io in
  (trace m = [EvClose] /\ statusOK (http.StatusCode res) = false
   /\ outcome m = Err (errorString (http.Status res)))
  \/ (trace m = [EvReadAll; EvClose] /\ statusOK (http.StatusCode res) = true
      /\ (forall blob, http.Body res <> Ok blob)
      /\ outcome m = (_ <-- http.Body res ;; Panic))
  \/ (exists blob, trace m = [EvReadAll; EvUnmarshal blob; EvClose]
        /\ statusOK (http.StatusCode res) = true
        /\ http.Body res = Ok blob /\ outcome m = dec blob).
Proof.
  intros m. unfold m, ReadAll.
  destruct (statusOK (http.StatusCode res)); simpl; [ | by left ].
  right. unfold io_bind, call, defer, pure_, trace, outcome.
  destruct (http.Body res) as [ blob | e | ]; simpl.
  - right. exists blob. destruct (dec blob); simpl; done.
  - left. done.
  - left. done.
Qed.




Section Outcomes.
Context {X A : Type} (pre : result X) (send : X -> result http.Response)
  (dec : string -> result A).

(** The outcome of a run, without its calls. *)
Abbreviation chain :=
  (x <-- pre ;; res <-- send x ;;
   if statusOK (http.StatusCode res)
   then blob <-- http.Body res ;; dec blob
   else Err (errorString (http.Status res))).

Lemma chain_Ok (a : A) :
  chain = Ok a
  <-> exists x res blob,
        pre = Ok x /\ send x = Ok res
        /\ 200 <= http.StatusCode res <= 299
        /\ http.Body res = Ok blob /\ dec blob = Ok a.
Proof.
  split.
  - destruct pre as [ x | | ]; simpl; try discriminate.
    destruct (send x) as [ res | | ] eqn:Hs; simpl; try discriminate.
    destruct (statusOK (http.StatusCode res)) eqn:Hc; try discriminate.
    destruct (http.Body res) as [ blob | | ] eqn:Hb; simpl; try discriminate.
    intros Hd. exists x, res, blob. rewrite <- statusOK_spec. done.
  - intros (x & res & blob & -> & Hs & Hc & Hb & Hd). simpl.
    rewrite Hs. simpl. apply statusOK_spec in Hc. by rewrite Hc, Hb.
Qed.

Lemma chain_Err (e : error) :
  chain = Err e
  <-> pre = Err e
      \/ exists x, pre = Ok x
           /\ (send x = Err e
               \/ exists res, send x = Ok res
                    /\ ((~ (200 <= http.StatusCode res <= 299)
                         /\ e = errorString (http.Status res))
                        \/ (200 <= http.StatusCode res <= 299
                            /\ (http.Body res = Err e
                                \/ exists blob, http.Body res = Ok blob
                                     /\ dec blob = Err e)))).
Proof.
  split.
  - destruct pre as [ x | e' | ]; simpl; try discriminate;
      [ | intros [= ->]; by left ].
    intros H. right. exists x. split; [ done | ].
    destruct (send x) as [ res | e' | ] eqn:Hs; simpl in H; try discriminate;
      [ | injection H as ->; by left ].
    right. exists res. split; [ done | ].
    destruct (statusOK (http.StatusCode res)) eqn:Hc.
    + right. apply statusOK_spec in Hc. split; [ done | ].
      destruct (http.Body res) as [ blob | e' | ]; simpl in H;
        try discriminate; [ right; eauto | injection H as ->; by left ].
    + left. injection H as <-. split; [ | done ].
      intros Hr. apply statusOK_spec in Hr. congruence.
  - intros [ -> | (x & -> & [ Hs | (res & Hs & Hres) ]) ]; simpl; [ done | | ];
      rewrite Hs; simpl; [ done | ].
    destruct Hres as [ [Hc ->] | [Hc [ Hb | (blob & Hb & Hd) ] ] ].
    + by rewrite (statusOK_false _ Hc).
    + apply statusOK_spec in Hc. by rewrite Hc, Hb.
    + apply statusOK_spec in Hc. by rewrite Hc, Hb.
Qed.
End Outcomes.

Lemma response_outcome {A} (res : http.Response) (dec : string -> result A) :
  outcome (defer EvClose
             (if negb (statusOK (http.StatusCode res))
              then pure_ (Err (errorString (http.Status res)))
              else
                blob <~ ReadAll (http.Body res) ;;
                r <~ call (EvUnmarshal blob) (dec blob) ;;
                pure_ (Ok r))%io)
  = if statusOK (http.StatusCode res)
    then blob <-- http.Body res ;; dec blob
    else Err (errorString (http.Status res)).
Proof.
  destruct (response_run res dec)
    as [ (_ & Hc & Ho) | [ (_ & Hc & Hb & Ho) | (blob & _ & Hc & Hb & Ho) ] ];
    cbv zeta in Ho; rewrite Ho, Hc; [ done | | by rewrite Hb ].
  destruct (http.Body res) as [ blob | | ]; [ by destruct (Hb blob) | done.. ].
Qed.

Lemma RequestDuration_outcome (E : Env) (c : Client) (dreq : ptr DurationRequest) :
  outcome (RequestDuration E c dreq)
  = (blob <-- Marshal dreq ;;
     res <-- http.Do (_httpClient E c)
               (NewRequest E "POST" (durationsURL E c) blob).1 ;;
     if statusOK (http.StatusCode res)
     then slurp <-- http.Body res ;; Unmarshal_DurationResponse E slurp
     else Err (errorString (http.Status res))).
Proof.
  unfold RequestDuration.
  destruct (Marshal dreq) as [ blob | e | ]; [ | done.. ].
  rewrite io_bind_pure. simpl rbind.
  destruct (NewRequest E "POST" (durationsURL E c) blob) as [rq er].
  cbv zeta. rewrite io_bind_call.
  change ((rq, er).1) with rq.
  destruct (http.Do _ rq) as [ res | e | ]; [ | done.. ].
  simpl rbind. rewrite <- response_outcome. reflexivity.
Qed.

Lemma doGeoCodingRequest_outcome (E : Env) (c : Client)
    (req : ReverseGeocodeRequest) :
  outcome (doGeoCodingRequest E c req)
  = (vals <-- toURLValues (Request req) ;;
     res <-- http.Get (_httpClient E c) (geocodingURL E c req vals) ;;
     if statusOK (http.StatusCode res)
     then blob <-- http.Body res ;; Unmarshal_GeocodeResponse E blob
     else Err (errorString (http.Status res))).
Proof.
  destruct (toURLValues (Request req)) as [ vals | e | ] eqn:Hvals.
  - rewrite (doGeoCodingRequest_Ok E c req vals Hvals), io_bind_call.
    simpl rbind.
    destruct (http.Get _ _) as [ res | e | ]; [ | done.. ].
    simpl rbind. rewrite <- response_outcome. reflexivity.
  - unfold doGeoCodingRequest. by rewrite Hvals.
  - unfold doGeoCodingRequest. by rewrite Hvals.
Qed.

(** X11: when an operation has a result. [RequestDuration] returns a
    response exactly when the request was marshalled, the HTTP client
    answered, the status code is in 200..299, the body was read, and the
    decoder accepted it; the response is then the decoder's. The same holds
    of a geocoding request, with the encoding of the filter in place of the
    marshalling. *)
Theorem operations_Ok_iff (E : Env) (c : Client) :
  (forall dreq dres,
     outcome (RequestDuration E c dreq) = Ok dres
     <-> exists blob res slurp,
           Marshal dreq = Ok blob
           /\ http.Do (_httpClient E c)
                (NewRequest E "POST" (durationsURL E c) blob).1 = Ok res
           /\ 200 <= http.StatusCode res <= 299
           /\ http.Body res = Ok slurp
           /\ Unmarshal_DurationResponse E slurp = Ok dres)
  /\ (forall req gres,
        outcome (doGeoCodingRequest E c req) = Ok gres
        <-> exists vals res blob,
              toURLValues (Request req) = Ok vals
              /\ http.Get (_httpClient E c) (geocodingURL E c req vals) = Ok res
              /\ 200 <= http.StatusCode res <= 299
              /\ http.Body res = Ok blob
              /\ Unmarshal_GeocodeResponse E blob = Ok gres).
Proof.
  split.
  - intros dreq dres. rewrite RequestDuration_outcome. apply chain_Ok.
  - intros req gres. rewrite doGeoCodingRequest_outcome. apply chain_Ok.
Qed.

(** X12: the errors of an operation. An error that [RequestDuration]
    returns is the error of marshalling the request, or the error of the
    HTTP client, or the status text of a response whose code is outside
    200..299, or the error of reading the body, or the error of the decoder;
    each is handed on as it is, and each of these failures is returned. The
    same holds of a geocoding request, with the encoding of the filter in
    place of the marshalling. *)
Theorem operations_Err_iff (E : Env) (c : Client) (e : error) :
  (forall dreq,
     outcome (RequestDuration E c dreq) = Err e
     <-> Marshal dreq = Err e
         \/ exists blob, Marshal dreq = Ok blob
              /\ (http.Do (_httpClient E c)
                    (NewRequest E "POST" (durationsURL E c) blob).1 = Err e
                  \/ exists res,
                       http.Do (_httpClient E c)
                         (NewRequest E "POST" (durationsURL E c) blob).1 = Ok res
                       /\ ((~ (200 <= http.StatusCode res <= 299)
                            /\ e = errorString (http.Status res))
                           \/ (200 <= http.StatusCode res <= 299
                               /\ (http.Body res = Err e
                                   \/ exists slurp, http.Body res = Ok slurp
                                        /\ Unmarshal_DurationResponse E slurp
                                           = Err e)))))
  /\ (forall req,
        outcome (doGeoCodingRequest E c req) = Err e
        <-> toURLValues (Request req) = Err e
            \/ exists vals, toURLValues (Request req) = Ok vals
                 /\ (http.Get (_httpClient E c) (geocodingURL E c req vals)
                     = Err e
                     \/ exists res,
                          http.Get (_httpClient E c) (geocodingURL E c req vals)
                          = Ok res
                          /\ ((~ (200 <= http.StatusCode res <= 299)
                               /\ e = errorString (http.Status res))
                              \/ (200 <= http.StatusCode res <= 299
                                  /\ (http.Body res = Err e
                                      \/ exists blob, http.Body res = Ok blob
                                           /\ Unmarshal_GeocodeResponse E blob
                                              = Err e))))).
Proof.
  split.
  - intros dreq. rewrite RequestDuration_outcome. apply chain_Err.
  - intros req. rewrite doGeoCodingRequest_outcome. apply chain_Err.
Qed.

(* ===================================================================== *)
(** * The order of the loop over the decoded map                          *)
(* ===================================================================== *)

Lemma Add_comm k1 k2 x1 x2 (v : url.Values) :
  k1 <> k2 -> url.Add k1 x1 (url.Add k2 x2 v) = url.Add k2 x2 (url.Add k1 x1 v).
Proof.
  intros Hne. unfold url.Add.
  rewrite !lookup_insert_ne by done. by apply insert_insert_ne.
Qed.

Lemma adds_Add_comm k1 k2 x xs (v : url.Values) :
  k1 <> k2 -> adds k1 xs (url.Add k2 x v) = url.Add k2 x (adds k1 xs v).
Proof.
  intros Hne. revert v. unfold adds.
  induction xs as [ | y xs IH ]; intros v; simpl; [ done | ].
  by rewrite <- IH, Add_comm.
Qed.

Lemma adds_comm k1 k2 xs1 xs2 (v : url.Values) :
  k1 <> k2 -> adds k1 xs1 (adds k2 xs2 v) = adds k2 xs2 (adds k1 xs1 v).
Proof.
  intros Hne. revert v.
  induction xs2 as [ | y xs2 IH ]; intros v; [ done | ].
  change (adds k2 (y :: xs2) v) with (adds k2 xs2 (url.Add k2 y v)).
  rewrite IH, adds_Add_comm by done. reflexivity.
Qed.

Lemma toURLValues_case_values key ival (outValues : url.Values) :
  toURLValues_case key ival outValues
  = match case_values ival with
    | Some xs => Ok (adds key xs outValues)
    | None => Panic
    end.
Proof.
  destruct ival as [ | s | b | t | t | t | t | t | t | t | t | s | s | p | l | l ];
    try reflexivity.
  - simpl. unfold adds. by rewrite foldl_fmap.
  - destruct p as [ s | ]; [ | reflexivity ]. simpl. unfold adds.
    by rewrite foldl_app, foldl_fmap.
Qed.

Lemma toURLValues_turn_comm k1 v1 k2 v2 (acc : result url.Values) :
  k1 <> k2 ->
  (out <-- (out <-- acc ;; toURLValues_case k2 v2 out) ;;
   toURLValues_case k1 v1 out)
  = (out <-- (out <-- acc ;; toURLValues_case k1 v1 out) ;;
     toURLValues_case k2 v2 out).
Proof.
  intros Hne. destruct acc as [ out | e | ]; simpl; [ | done.. ].
  rewrite !toURLValues_case_values.
  destruct (case_values v1) as [ xs1 | ] eqn:H1,
           (case_values v2) as [ xs2 | ] eqn:H2; simpl;
    rewrite ?toURLValues_case_values, ?H1, ?H2; try done.
  by rewrite adds_comm.
Qed.

Lemma foldl_foldr_reverse {A B} (f : A -> B -> A) (a : A) (l : list B) :
  foldl f a l = foldr (fun x acc => f acc x) a (reverse l).
Proof.
  revert a. induction l as [ | x l IH ]; intros a; simpl; [ done | ].
  by rewrite IH, reverse_cons, foldr_app.
Qed.

(** X13: the result of the loop of [toURLValues] does not depend on the
    order in which [range] visits the entries of the map, which Go leaves
    open: run over the entries in any order, the loop returns the same set
    of parameters, or panics alike. *)
Theorem toURLValues_range_any_order (recv : gmap string any)
    (entries : list (string * any)) :
  entries ≡ₚ map_to_list recv ->
  toURLValues_loop entries = toURLValues_range recv.
Proof.
  intros Hperm. unfold toURLValues_loop, toURLValues_range.
  rewrite foldl_foldr_reverse, map_fold_foldr.
  transitivity
    (foldr (fun (kv : string * any) acc =>
              outValues <-- acc ;; toURLValues_case kv.1 kv.2 outValues)
       (Ok ∅) (map_to_list recv)).
  - symmetry.
    apply (foldr_permutation eq
             (fun (kv : string * any) acc =>
                outValues <-- acc ;; toURLValues_case kv.1 kv.2 outValues)).
    + by intros kv acc1 acc2 ->.
    + intros j1 [k1 v1] j2 [k2 v2] acc Hj H1 H2. simpl.
      apply toURLValues_turn_comm. intros <-. apply Hj.
      apply (NoDup_lookup _ _ _ k1 (NoDup_fst_map_to_list recv));
        rewrite list_lookup_fmap; [ by rewrite H1 | by rewrite H2 ].
    + by rewrite reverse_Permutation.
  - apply foldr_ext; [ | done.. ]. by intros [k v] acc.
Qed.

Lemma toURLValues_range_any_order_witness :
  let recv : gmap string any :=
    {[ "autocomplete" := go_bool true; "country" := go_string "us" ]} in
  [("country", go_string "us"); ("autocomplete", go_bool true)]
    ≡ₚ map_to_list recv
  /\ [("autocomplete", go_bool true); ("country", go_string "us")]
       ≡ₚ map_to_list recv
  /\ toURLValues_loop [("country", go_string "us"); ("autocomplete", go_bool true)]
     = toURLValues_range recv
  /\ toURLValues_loop [("autocomplete", go_bool true); ("country", go_string "us")]
     = toURLValues_range recv.
Proof.
  intros recv.
  assert (map_to_list recv
          = [("country", go_string "us"); ("autocomplete", go_bool true)]) as Hl
    by (vm_compute; reflexivity).
  assert ([("country", go_string "us"); ("autocomplete", go_bool true)]
            ≡ₚ map_to_list recv) as H1 by (by rewrite Hl).
  assert ([("autocomplete", go_bool true); ("country", go_string "us")]
            ≡ₚ map_to_list recv) as H2 by (rewrite Hl; apply perm_swap).
  split; [ exact H1 | ]. split; [ exact H2 | ].
  split.
  - exact (toURLValues_range_any_order recv _ H1).
  - exact (toURLValues_range_any_order recv _ H2).
Defined.

Lemma adds_lookup key xs (v : url.Values) k :
  adds key xs v !! k
  = if decide (key = k)
    then match xs with
         | [] => v !! k
         | _ => Some (default [] (v !! k) ++ xs)
         end
    else v !! k.
Proof.
  revert v. unfold adds. induction xs as [ | x xs IH ]; intros v; simpl.
  - by destruct (decide (key = k)).
  - rewrite IH, Add_lookup. destruct (decide (key = k)) as [ -> | ]; [ | done ].
    simpl. destruct xs as [ | y xs ]; [ done | ].
    by rewrite <- app_assoc.
Qed.

(** X14: one turn of the loop of [toURLValues], when it does not panic,
    changes the values of no key but its own, and to its own key it only
    adds, after the values the key had: one value for a string, an unsigned
    integer or a bool; one per element for a list of floats or of strings;
    one per coordinate and one more for a pointer to a coordinate pair; none
    for nil and for any other type. It panics only on a nil pointer to a
    pair. *)
Theorem toURLValues_case_appends (key : string) (ival : any)
    (outValues : url.Values) :
  match toURLValues_case key ival outValues with
  | Ok out =>
      (forall k, k <> key -> out !! k = outValues !! k)
      /\ exists xs,
           length xs = case_count ival
           /\ default [] (out !! key) = default [] (outValues !! key) ++ xs
           /\ (xs = [] -> out = outValues)
  | Err _ => False
  | Panic => ival = go_ptr_LatLonPair None
  end.
Proof.
  rewrite toURLValues_case_values.
  destruct (case_values ival) as [ xs | ] eqn:Hxs.
  - split.
    + intros k Hk. rewrite adds_lookup. by rewrite decide_False.
    + exists xs. split; [ | split ].
      * destruct ival as [ | s | b | t | t | t | t | t | t | t | t | s | s | p | l | l ];
          try (by injection Hxs as <-).
        -- injection Hxs as <-. by rewrite length_fmap.
        -- destruct p as [ s | ]; [ | discriminate ]. injection Hxs as <-.
           rewrite length_app, length_fmap. done.
      * rewrite adds_lookup, decide_True by done.
        destruct xs; [ by rewrite app_nil_r | done ].
      * by intros ->.
  - destruct ival as [ | s | b | t | t | t | t | t | t | t | t | s | s | p | l | l ];
      try discriminate.
    by destruct p.
Qed.

Example toURLValues_case_pair_after_bool :
  toURLValues_case "proximity"
    (go_ptr_LatLonPair (Some (Some [float32_of_int 1; float32_of_int 2])))
    {[ "proximity" := ["x"]; "autocomplete" := ["true"] ]}
  = Ok {[ "proximity" := ["x"; "%!s(float32=1)f"; "%!s(float32=2)f"; "&[1 2]"];
          "autocomplete" := ["true"] ]}.
Proof. vm_compute. reflexivity. Qed.

(* ===================================================================== *)
(** * The sentinel and the numbers                                        *)
(* ===================================================================== *)

Lemma binary_round_aux_sign prec emax s m e l s' m' e' :
  binary_round_aux prec emax s m e l = S754_finite s' m' e' -> s' = s.
Proof.
  unfold binary_round_aux.
  destruct (shr_fexp prec emax m e l) as [mrs1 e1].
  destruct (shr_fexp prec emax _ e1 loc_Exact) as [mrs2 e2].
  destruct (shr_m mrs2); try discriminate.
  destruct (e2 <=? emax - prec); try discriminate.
  by intros [= -> _ _].
Qed.

Lemma round_decimal_sign prec emax d s m e :
  strconv.round_decimal prec emax d = S754_finite s m e -> s = strconv.neg d.
Proof.
  unfold strconv.round_decimal, strconv.round_ratio.
  destruct (strconv.digits d) as [ | p ]; [ discriminate | ].
  destruct (0 <=? strconv.exp10 d).
  - destruct (SFdiv_core_binary _ _ _ _ _ _) as [ [m0 e0] l0 ].
    apply binary_round_aux_sign.
  - destruct (SFdiv_core_binary _ _ _ _ _ _) as [ [m0 e0] l0 ].
    apply binary_round_aux_sign.
Qed.

Lemma float32_of_float64_sign t s m e :
  float32_of_float64 t = S754_finite s m e -> exists m' e', t = S754_finite s m' e'.
Proof.
  destruct t as [ s0 | s0 | | s0 m0 e0 ]; simpl; try discriminate.
  unfold binary_round.
  destruct (shl_align _ _ _) as [mz ez].
  intros H. apply binary_round_aux_sign in H. subst. eauto.
Qed.

Lemma NoPathDuration_negative : exists m e, NoPathDuration = S754_finite true m e.
Proof. do 2 eexists. vm_compute. reflexivity. Qed.

(** The literal -1 and null decode alike: the sentinel cannot be told from
    a duration of -1 a server would send. *)
Example UnmarshalJSON_minus_one :
  UnmarshalJSON (JArray [JInt (-1)]) = UnmarshalJSON (JArray [JNull]).
Proof. vm_compute. reflexivity. Qed.

(** X15: a number that is not negative never decodes to the sentinel: where
    the array has a numeral without a minus sign, however large or small,
    the element of the decoded row differs from [NoPathDuration]. *)
Theorem UnmarshalJSON_sentinel_not_for_nonnegative (l : list value)
    (recv : LatLonPair) (i : nat) (d : strconv.decimal) :
  UnmarshalJSON (JArray l) = Ok recv ->
  l !! i = Some (JNumber d) ->
  strconv.neg d = false ->
  exists t, elems recv !! i = Some t /\ t <> NoPathDuration.
Proof.
  intros Hrecv Hi Hneg.
  assert (exists l', each valueInterface l = Ok l') as [l' Hl'].
  { unfold UnmarshalJSON in Hrecv. simpl in Hrecv.
    destruct (each valueInterface l); try discriminate. eauto. }
  destruct (UnmarshalJSON_array l l' Hl') as (recv' & Hrecv' & Helems).
  assert (recv' = recv) as -> by congruence.
  eexists. split.
  { rewrite Helems, list_lookup_fmap, Hi. reflexivity. }
  simpl. destruct NoPathDuration_negative as (m & e & ->).
  intros Heq. apply float32_of_float64_sign in Heq as (m' & e' & Ht).
  apply round_decimal_sign in Ht. congruence.
Qed.

Lemma UnmarshalJSON_sentinel_not_for_nonnegative_witness :
  UnmarshalJSON (JArray [JNull; JNumber (dec 1 (-60)); JNumber (dec 1 300)])
  = Ok (Some [NoPathDuration; S754_zero false; S754_infinity false])
  /\ [JNull; JNumber (dec 1 (-60)); JNumber (dec 1 300)] !! 1%nat
     = Some (JNumber (dec 1 (-60)))
  /\ strconv.neg (dec 1 (-60)) = false
  /\ exists t,
       elems (Some [NoPathDuration; S754_zero false; S754_infinity false]) !! 1%nat
       = Some t
       /\ t <> NoPathDuration.
Proof.
  assert (UnmarshalJSON
            (JArray [JNull; JNumber (dec 1 (-60)); JNumber (dec 1 300)])
          = Ok (Some [NoPathDuration; S754_zero false; S754_infinity false]))
    as H by (vm_compute; reflexivity).
  split; [ exact H | ]. split; [ reflexivity | ]. split; [ reflexivity | ].
  exact (UnmarshalJSON_sentinel_not_for_nonnegative _ _ 1%nat (dec 1 (-60)) H
           eq_refl eq_refl).
Defined.

(* ===================================================================== *)
(** * The two revisions of the query parameter encoder                    *)
(* ===================================================================== *)

Lemma Unmarshal_map_stored blob recv :
  Unmarshal_map blob = Ok recv -> forall k v, recv !! k = Some v -> stored v.
Proof.
  destruct blob as [ | b | d | s | l | l ]; try discriminate.
  - intros [= <-] k v Hk. by rewrite lookup_empty in Hk.
  - intros H k v Hk. apply Unmarshal_map_object in H as [Hfrom _].
    destruct (Hfrom k v Hk) as (j & _ & Hj). by eapply valueInterface_stored.
Qed.

Lemma traced_toURLValues_case_stored key ival (outValues : url.Values) :
  stored ival ->
  traced.toURLValues_case key ival outValues
  = toURLValues_case key ival outValues.
Proof. by destruct ival. Qed.

Lemma traced_toURLValues_range_stored (recv : gmap string any) :
  (forall k v, recv !! k = Some v -> stored v) ->
  traced.toURLValues_range recv = toURLValues_range recv.
Proof.
  intros Hst. unfold traced.toURLValues_range, toURLValues_range.
  rewrite !map_fold_foldr.
  assert (Forall (fun kv => stored kv.2) (map_to_list recv)) as Hall.
  { apply Forall_forall. intros [k v] Hkv. apply (Hst k).
    by apply elem_of_map_to_list. }
  induction Hall as [ | [k v] l Hv _ IH ]; simpl; [ done | ].
  rewrite IH.
  match goal with |- rbind ?r _ = _ => destruct r as [ out | e | ] end;
    simpl; [ | done.. ].
  by apply traced_toURLValues_case_stored.
Qed.

(** X16: the two revisions of [toURLValues] in the repository, which differ
    in the verb of the arm for a coordinate pair ([%sf] in one, [%f] in the
    other), return the same for every value of every type: the arm is never
    reached with what the decoder stores. *)
Theorem toURLValues_revisions_agree {A} `{Marshaler A} (v : A) :
  traced.toURLValues v = toURLValues v.
Proof.
  unfold traced.toURLValues, toURLValues.
  destruct (Marshal v) as [ blob | e | ]; simpl; [ | done.. ].
  destruct (Unmarshal_map blob) as [ recv | e | ] eqn:Hrecv; simpl; [ | done.. ].
  apply traced_toURLValues_range_stored. by eapply Unmarshal_map_stored.
Qed.

(** The arms do differ where they are reached. *)
Example traced_toURLValues_case_ptr_LatLonPair :
  traced.toURLValues_case "proximity"
    (go_ptr_LatLonPair (Some (Some [float32_of_int 1; float32_of_int 2]))) ∅
  = Ok {[ "proximity" := ["1.000000"; "2.000000"; "&[1 2]"] ]}.
Proof. vm_compute. reflexivity. Qed.
